(** * BME280 driver scaffold: tracked transport and health state machine

    Shallow embedding of [src/src/BME280.cpp] and of the class declared in
    [src/include/BME280/BME280.h].

    - Unsigned C++ integers ([uint8_t], [uint32_t], [size_t]) are values of
      [N]; an increment is written with its wrap-around ([wrap8], [wrap32]).
    - A pointer to a byte buffer is a [Buf]: [None] is [nullptr], [Some bs]
      the bytes the pointer refers to.
    - A method of the class is a computation in the state monad [M] over a
      [Machine]: the driver object, the outside world the injected transport
      callbacks act on, and a ghost log of the callback invocations.
    - An injected callback is a function on the world: it sees its
      arguments and the world, answers with a [Status] (and the bytes it
      stored through the receive pointer) and leaves a new world. It does
      not call back into the driver object, which has no reentrancy
      guarantee.
    - [millis()] and the two register constants of [CommandTable.h] are
      parameters of the development. *)

From Stdlib Require Import NArith List Bool Lia.
From Stdlib Require String.
Import ListNotations.
Import String.StringSyntax.
Local Open Scope string_scope.
Local Open Scope list_scope.
Local Open Scope N_scope.

(** ** Fixed-width arithmetic *)

(** [std::numeric_limits<uint32_t>::max()] *)
Definition maxU32 : N := 4294967295.
(** [std::numeric_limits<uint8_t>::max()] *)
Definition maxU8 : N := 255.

Definition wrap8 (n : N) : N := n mod 256.
Definition wrap32 (n : N) : N := n mod 4294967296.

(** [static constexpr size_t MAX_WRITE_LEN = 16;] *)
Definition MAX_WRITE_LEN : N := 16.

(** ** Result type *)

(** Modelled from the spec: [Status.h] is not among the sources. The closed
    set of classifications is the one of spec section 3; the constructor
    names are those used by [BME280.cpp] and by the example's [errToStr]. *)
Module Err.
Inductive t : Set :=
| OK | NOT_INITIALIZED | INVALID_CONFIG | I2C_ERROR | TIMEOUT
| INVALID_PARAM | DEVICE_NOT_FOUND | CHIP_ID_MISMATCH
| CALIBRATION_INVALID | MEASUREMENT_NOT_READY | COMPENSATION_ERROR
| BUSY | IN_PROGRESS.

Definition eqb (a b : t) : bool :=
  match a, b with
  | OK, OK | NOT_INITIALIZED, NOT_INITIALIZED
  | INVALID_CONFIG, INVALID_CONFIG | I2C_ERROR, I2C_ERROR
  | TIMEOUT, TIMEOUT | INVALID_PARAM, INVALID_PARAM
  | DEVICE_NOT_FOUND, DEVICE_NOT_FOUND
  | CHIP_ID_MISMATCH, CHIP_ID_MISMATCH
  | CALIBRATION_INVALID, CALIBRATION_INVALID
  | MEASUREMENT_NOT_READY, MEASUREMENT_NOT_READY
  | COMPENSATION_ERROR, COMPENSATION_ERROR
  | BUSY, BUSY | IN_PROGRESS, IN_PROGRESS => true
  | _, _ => false
  end.
End Err.

(** Modelled from the spec: [Status.h] is not among the sources. A result
    holds one classification, an optional numeric detail and an optional
    message (spec section 3). *)
Record Status : Type := mkStatus {
  code : Err.t;
  detail : option N;
  msg : option String.string
}.

Module StatusOps.
(** [Status::Ok()] *)
Definition Ok : Status := mkStatus Err.OK None None.
(** [Status::Error(err, message)] and [Status::Error(err, message, detail)] *)
Definition Error (e : Err.t) (message : String.string) (d : option N) : Status :=
  mkStatus e d (Some message).
(** [st.ok()] *)
Definition ok (st : Status) : bool := Err.eqb (code st) Err.OK.
End StatusOps.
Import StatusOps.

(** ** Buffers *)

Definition Buf : Type := option (list N).

Definition isNull {A : Type} (p : option A) : bool :=
  match p with None => true | Some _ => false end.

(** The bytes [written] through a pointer to a buffer holding [old]: the
    prefix is overwritten, nothing is written past the end of the buffer. *)
Definition store_bytes (old written : list N) : list N :=
  firstn (length old) (map wrap8 written) ++ skipn (length written) old.

Definition rx_after (rxBuf : Buf) (written : list N) : Buf :=
  option_map (fun old => store_bytes old written) rxBuf.

(** [std::memcpy(&dst[off], src, n)], for a source of at least [n] bytes and
    a destination of at least [off + n]. *)
Definition memcpy (dst : list N) (off : nat) (src : list N) (n : nat) : list N :=
  firstn off dst ++ firstn n src ++ skipn (off + n) dst.

(** [a[i] = v] for an index inside the array. *)
Definition array_set (a : list N) (i : nat) (v : N) : list N :=
  firstn i a ++ v :: skipn (S i) a.

(** The single byte behind [&id] after a transfer. *)
Definition byte_of (b : Buf) : N :=
  match b with
  | Some (x :: _) => x
  | _ => 0
  end.

(** ** Driver state *)

Inductive DriverState : Set := UNINIT | READY | DEGRADED | OFFLINE.

(** Ghost record of one invocation of an injected transport callback, with
    the arguments it was given. *)
Inductive BusCall : Type :=
| CallWrite (addr : N) (buf : Buf) (len : N) (timeoutMs : N) (user : N)
| CallWriteRead (addr : N) (txBuf : Buf) (txLen : N) (rxBuf : Buf) (rxLen : N)
                (timeoutMs : N) (user : N).

Section Code.

(** The world outside the driver: the bus, the device, the clock. *)
Variable W : Type.

(** [i2cWrite(addr, buf, len, timeoutMs, user)] *)
Definition I2cWriteFn : Type :=
  N -> Buf -> N -> N -> N -> W -> Status * W.

(** [i2cWriteRead(addr, txBuf, txLen, rxBuf, rxLen, timeoutMs, user)]; the
    list is what the callback stores through [rxBuf]. *)
Definition I2cWriteReadFn : Type :=
  N -> Buf -> N -> Buf -> N -> N -> N -> W -> (Status * list N) * W.

(** Modelled from the spec: [Config.h] is not among the sources. The
    fields are those [BME280.cpp] reads (spec section 3, capability
    configuration); an absent callback is [None]. *)
Record Config : Type := mkConfig {
  i2cWrite : option I2cWriteFn;
  i2cWriteRead : option I2cWriteReadFn;
  i2cAddress : N;
  i2cTimeoutMs : N;
  i2cUser : N;
  offlineThreshold : N
}.

Definition set_offlineThreshold (t : N) (c : Config) : Config :=
  mkConfig (i2cWrite c) (i2cWriteRead c) (i2cAddress c) (i2cTimeoutMs c)
           (i2cUser c) t.

(** The data members of [class BME280]. *)
Record BME280 : Type := mkBME280 {
  _config : Config;
  _initialized : bool;
  _driverState : DriverState;
  _lastOkMs : N;
  _lastErrorMs : N;
  _lastError : Status;
  _consecutiveFailures : N;
  _totalFailures : N;
  _totalSuccess : N
}.

(** A driver object as constructed, before any [begin()]: the default
    member initializers of the header, around some default [Config]. *)
Definition fresh (c : Config) : BME280 :=
  mkBME280 c false UNINIT 0 0 Ok 0 0 0.

Definition set_config (v : Config) (d : BME280) : BME280 :=
  mkBME280 v (_initialized d) (_driverState d) (_lastOkMs d)
           (_lastErrorMs d) (_lastError d) (_consecutiveFailures d)
           (_totalFailures d) (_totalSuccess d).
Definition set_initialized (v : bool) (d : BME280) : BME280 :=
  mkBME280 (_config d) v (_driverState d) (_lastOkMs d)
           (_lastErrorMs d) (_lastError d) (_consecutiveFailures d)
           (_totalFailures d) (_totalSuccess d).
Definition set_driverState (v : DriverState) (d : BME280) : BME280 :=
  mkBME280 (_config d) (_initialized d) v (_lastOkMs d)
           (_lastErrorMs d) (_lastError d) (_consecutiveFailures d)
           (_totalFailures d) (_totalSuccess d).
Definition set_lastOkMs (v : N) (d : BME280) : BME280 :=
  mkBME280 (_config d) (_initialized d) (_driverState d) v
           (_lastErrorMs d) (_lastError d) (_consecutiveFailures d)
           (_totalFailures d) (_totalSuccess d).
Definition set_lastErrorMs (v : N) (d : BME280) : BME280 :=
  mkBME280 (_config d) (_initialized d) (_driverState d) (_lastOkMs d)
           v (_lastError d) (_consecutiveFailures d)
           (_totalFailures d) (_totalSuccess d).
Definition set_lastError (v : Status) (d : BME280) : BME280 :=
  mkBME280 (_config d) (_initialized d) (_driverState d) (_lastOkMs d)
           (_lastErrorMs d) v (_consecutiveFailures d)
           (_totalFailures d) (_totalSuccess d).
Definition set_consecutiveFailures (v : N) (d : BME280) : BME280 :=
  mkBME280 (_config d) (_initialized d) (_driverState d) (_lastOkMs d)
           (_lastErrorMs d) (_lastError d) v
           (_totalFailures d) (_totalSuccess d).
Definition set_totalFailures (v : N) (d : BME280) : BME280 :=
  mkBME280 (_config d) (_initialized d) (_driverState d) (_lastOkMs d)
           (_lastErrorMs d) (_lastError d) (_consecutiveFailures d)
           v (_totalSuccess d).
Definition set_totalSuccess (v : N) (d : BME280) : BME280 :=
  mkBME280 (_config d) (_initialized d) (_driverState d) (_lastOkMs d)
           (_lastErrorMs d) (_lastError d) (_consecutiveFailures d)
           (_totalFailures d) v.

(** ** The machine and its monad *)

Record Machine : Type := mkMachine {
  drv : BME280;
  world : W;
  calls : list BusCall
}.

Definition M (A : Type) : Type := Machine -> A * Machine.

Definition ret {A : Type} (a : A) : M A := fun m => (a, m).
Definition bind {A B : Type} (c : M A) (k : A -> M B) : M B :=
  fun m => let (a, m') := c m in k a m'.

(** Read a data member. *)
Definition member {A : Type} (f : BME280 -> A) : M A :=
  fun m => (f (drv m), m).
(** Assign a data member. *)
Definition assign (f : BME280 -> BME280) : M unit :=
  fun m => (tt, mkMachine (f (drv m)) (world m) (calls m)).
(** [if (c) { body }] with no else branch. *)
Definition when (c : bool) (body : M unit) : M unit :=
  if c then body else ret tt.

Notation "x <- c ;; k" := (bind c (fun x => k))
  (at level 61, c at next level, right associativity).
Notation "c ;; k" := (bind c (fun _ => k))
  (at level 61, right associativity).

(** ** Platform and device constants *)

(** Arduino's [millis()], a [uint32_t] read off the world's clock. *)
Variable millis : W -> N.

(** [cmd::REG_CHIP_ID] and [cmd::CHIP_ID_BME280]; [CommandTable.h] is not
    among the sources, so both are parameters. *)
Variable REG_CHIP_ID : N.
Variable CHIP_ID_BME280 : N.

Definition call_millis : M N :=
  fun m => (wrap32 (millis (world m)), m).

(** Calling an injected callback: the world moves on, the bytes the
    callback stored land in the receive buffer, the call is logged. *)
Definition invoke_i2cWriteRead (f : I2cWriteReadFn)
    (addr : N) (txBuf : Buf) (txLen : N) (rxBuf : Buf) (rxLen : N)
    (timeoutMs user : N) : M (Status * Buf) :=
  fun m =>
    let '((st, written), w') :=
      f addr txBuf txLen rxBuf rxLen timeoutMs user (world m) in
    ((st, rx_after rxBuf written),
     mkMachine (drv m) w'
       (calls m ++ [CallWriteRead addr txBuf txLen rxBuf rxLen timeoutMs user])).

Definition invoke_i2cWrite (f : I2cWriteFn)
    (addr : N) (buf : Buf) (len : N) (timeoutMs user : N) : M Status :=
  fun m =>
    let '(st, w') := f addr buf len timeoutMs user (world m) in
    (st, mkMachine (drv m) w' (calls m ++ [CallWrite addr buf len timeoutMs user])).

(** ** Lifecycle *)

(** [Status BME280::begin(const Config& config)] *)
Definition begin (config : Config) : M Status :=
  assign (set_initialized false) ;;
  assign (set_driverState UNINIT) ;;
  assign (set_lastOkMs 0) ;;
  assign (set_lastErrorMs 0) ;;
  assign (set_lastError Ok) ;;
  assign (set_consecutiveFailures 0) ;;
  assign (set_totalFailures 0) ;;
  assign (set_totalSuccess 0) ;;
  if isNull (i2cWrite config) || isNull (i2cWriteRead config) then
    ret (Error Err.INVALID_CONFIG "I2C callbacks not set" None)
  else if i2cTimeoutMs config =? 0 then
    ret (Error Err.INVALID_CONFIG "I2C timeout must be > 0" None)
  else
    assign (set_config config) ;;
    thr <- member (fun d => offlineThreshold (_config d)) ;;
    when (thr =? 0)
      (assign (fun d => set_config (set_offlineThreshold 1 (_config d)) d)) ;;
    assign (set_initialized true) ;;
    assign (set_driverState READY) ;;
    ret Ok.

(** [void BME280::tick(uint32_t nowMs)] *)
Definition tick (nowMs : N) : M unit := ret tt.

(** [void BME280::end()] *)
Definition end_ : M unit :=
  assign (set_initialized false) ;;
  assign (set_driverState UNINIT).

(** ** Health state machine *)

(** [Status BME280::_updateHealth(const Status& st)] *)
Definition _updateHealth (st : Status) : M Status :=
  init <- member _initialized ;;
  if negb init then ret st
  else
    now <- call_millis ;;
    if ok st then
      assign (set_lastOkMs now) ;;
      ts <- member _totalSuccess ;;
      when (ts <? maxU32) (assign (set_totalSuccess (wrap32 (ts + 1)))) ;;
      assign (set_consecutiveFailures 0) ;;
      assign (set_driverState READY) ;;
      ret st
    else
      assign (set_lastError st) ;;
      assign (set_lastErrorMs now) ;;
      tf <- member _totalFailures ;;
      when (tf <? maxU32) (assign (set_totalFailures (wrap32 (tf + 1)))) ;;
      cf <- member _consecutiveFailures ;;
      when (cf <? maxU8) (assign (set_consecutiveFailures (wrap8 (cf + 1)))) ;;
      cf' <- member _consecutiveFailures ;;
      thr <- member (fun d => offlineThreshold (_config d)) ;;
      (if thr <=? cf' then assign (set_driverState OFFLINE)
       else assign (set_driverState DEGRADED)) ;;
      ret st.

(** ** Transport wrappers *)

(** [Status BME280::_i2cWriteReadRaw(txBuf, txLen, rxBuf, rxLen)]; the
    second component is the receive buffer after the call. *)
Definition _i2cWriteReadRaw (txBuf : Buf) (txLen : N) (rxBuf : Buf) (rxLen : N)
    : M (Status * Buf) :=
  cfg <- member _config ;;
  match i2cWriteRead cfg with
  | None => ret (Error Err.INVALID_CONFIG "I2C write-read not set" None, rxBuf)
  | Some f =>
      invoke_i2cWriteRead f (i2cAddress cfg) txBuf txLen rxBuf rxLen
                          (i2cTimeoutMs cfg) (i2cUser cfg)
  end.

(** [Status BME280::_i2cWriteRaw(buf, len)] *)
Definition _i2cWriteRaw (buf : Buf) (len : N) : M Status :=
  cfg <- member _config ;;
  match i2cWrite cfg with
  | None => ret (Error Err.INVALID_CONFIG "I2C write not set" None)
  | Some f =>
      invoke_i2cWrite f (i2cAddress cfg) buf len (i2cTimeoutMs cfg) (i2cUser cfg)
  end.

(** The three classifications the tracked wrappers hand back without a
    health update. *)
Definition untracked_code (c : Err.t) : bool :=
  Err.eqb c Err.INVALID_CONFIG || Err.eqb c Err.INVALID_PARAM
  || Err.eqb c Err.NOT_INITIALIZED.

(** [Status BME280::_i2cWriteReadTracked(txBuf, txLen, rxBuf, rxLen)] *)
Definition _i2cWriteReadTracked (txBuf : Buf) (txLen : N) (rxBuf : Buf) (rxLen : N)
    : M (Status * Buf) :=
  init <- member _initialized ;;
  if negb init then
    ret (Error Err.NOT_INITIALIZED "begin() not called" None, rxBuf)
  else if isNull txBuf || (txLen =? 0) || ((0 <? rxLen) && isNull rxBuf) then
    ret (Error Err.INVALID_PARAM "Invalid I2C buffer" None, rxBuf)
  else
    r <- _i2cWriteReadRaw txBuf txLen rxBuf rxLen ;;
    if untracked_code (code (fst r)) then ret r
    else
      st <- _updateHealth (fst r) ;;
      ret (st, snd r).

(** [Status BME280::_i2cWriteTracked(buf, len)] *)
Definition _i2cWriteTracked (buf : Buf) (len : N) : M Status :=
  init <- member _initialized ;;
  if negb init then
    ret (Error Err.NOT_INITIALIZED "begin() not called" None)
  else if isNull buf || (len =? 0) then
    ret (Error Err.INVALID_PARAM "Invalid I2C buffer" None)
  else
    st <- _i2cWriteRaw buf len ;;
    if untracked_code (code st) then ret st
    else _updateHealth st.

(** ** Register access *)

(** [Status BME280::readRegs(startReg, buf, len)] *)
Definition readRegs (startReg : N) (buf : Buf) (len : N) : M (Status * Buf) :=
  init <- member _initialized ;;
  if negb init then
    ret (Error Err.NOT_INITIALIZED "begin() not called" None, buf)
  else if isNull buf || (len =? 0) then
    ret (Error Err.INVALID_PARAM "Invalid read buffer" None, buf)
  else
    let reg := startReg in
    _i2cWriteReadTracked (Some [reg]) 1 buf len.

(** [Status BME280::writeRegs(startReg, buf, len)] *)
Definition writeRegs (startReg : N) (buf : Buf) (len : N) : M Status :=
  init <- member _initialized ;;
  if negb init then
    ret (Error Err.NOT_INITIALIZED "begin() not called" None)
  else
    match buf with
    | None => ret (Error Err.INVALID_PARAM "Invalid write buffer" None)
    | Some bytes =>
        if len =? 0 then
          ret (Error Err.INVALID_PARAM "Invalid write buffer" None)
        else if MAX_WRITE_LEN <? len then
          ret (Error Err.INVALID_PARAM "Write length too large" None)
        else
          let payload := repeat 0 (N.to_nat (MAX_WRITE_LEN + 1)) in
          let payload := array_set payload 0 startReg in
          let payload := memcpy payload 1 bytes (N.to_nat len) in
          _i2cWriteTracked (Some payload) (len + 1)
    end.

(** ** Diagnostics *)

(** [Status BME280::probe()] *)
Definition probe : M Status :=
  init <- member _initialized ;;
  if negb init then
    ret (Error Err.NOT_INITIALIZED "begin() not called" None)
  else
    let reg := REG_CHIP_ID in
    let id := 0 in
    r <- _i2cWriteReadRaw (Some [reg]) 1 (Some [id]) 1 ;;
    if negb (ok (fst r)) then ret (fst r)
    else
      let id := byte_of (snd r) in
      if negb (id =? CHIP_ID_BME280) then
        ret (Error Err.CHIP_ID_MISMATCH "Chip ID mismatch" (Some id))
      else ret Ok.

(** [Status BME280::recover()] *)
Definition recover : M Status :=
  init <- member _initialized ;;
  if negb init then
    ret (Error Err.NOT_INITIALIZED "begin() not called" None)
  else
    let reg := REG_CHIP_ID in
    let id := 0 in
    r <- _i2cWriteReadTracked (Some [reg]) 1 (Some [id]) 1 ;;
    if negb (ok (fst r)) then ret (fst r)
    else
      let id := byte_of (snd r) in
      if negb (id =? CHIP_ID_BME280) then
        ret (Error Err.CHIP_ID_MISMATCH "Chip ID mismatch" (Some id))
      else ret Ok.

End Code.

Arguments mkConfig {W}.
Arguments mkBME280 {W}.
Arguments mkMachine {W}.
Arguments fresh {W} c.
Arguments i2cWrite {W}.
Arguments i2cWriteRead {W}.
Arguments i2cAddress {W}.
Arguments i2cTimeoutMs {W}.
Arguments i2cUser {W}.
Arguments offlineThreshold {W}.
Arguments set_offlineThreshold {W}.
Arguments _config {W}.
Arguments _initialized {W}.
Arguments _driverState {W}.
Arguments _lastOkMs {W}.
Arguments _lastErrorMs {W}.
Arguments _lastError {W}.
Arguments _consecutiveFailures {W}.
Arguments _totalFailures {W}.
Arguments _totalSuccess {W}.
Arguments set_config {W}.
Arguments set_initialized {W}.
Arguments set_driverState {W}.
Arguments set_lastOkMs {W}.
Arguments set_lastErrorMs {W}.
Arguments set_lastError {W}.
Arguments set_consecutiveFailures {W}.
Arguments set_totalFailures {W}.
Arguments set_totalSuccess {W}.
Arguments drv {W}.
Arguments world {W}.
Arguments calls {W}.
Arguments member {W}.
Arguments assign {W}.
Arguments when {W}.
Arguments call_millis {W}.
Arguments invoke_i2cWriteRead {W}.
Arguments invoke_i2cWrite {W}.
Arguments ret {W A} a.
Arguments bind {W A B} c k.
Arguments begin {W} config.
Arguments tick {W} nowMs.
Arguments end_ {W}.
Arguments _updateHealth {W} millis st.
Arguments _i2cWriteReadRaw {W} txBuf txLen rxBuf rxLen.
Arguments _i2cWriteRaw {W} buf len.
Arguments _i2cWriteReadTracked {W} millis txBuf txLen rxBuf rxLen.
Arguments _i2cWriteTracked {W} millis buf len.
Arguments readRegs {W} millis startReg buf len.
Arguments writeRegs {W} millis startReg buf len.
Arguments probe {W} REG_CHIP_ID CHIP_ID_BME280.
Arguments recover {W} millis REG_CHIP_ID CHIP_ID_BME280.

(** ** Running the driver *)

Section Runs.

Context {W : Type}.
Variable millis : W -> N.
Variable REG_CHIP_ID : N.
Variable CHIP_ID_BME280 : N.

(** The status returned by a call and the machine it leaves behind. *)
Definition result {A : Type} (c : M W A) (m : Machine W) : A := fst (c m).
Definition after {A : Type} (c : M W A) (m : Machine W) : Machine W := snd (c m).

(** The accessors of the header. *)
Definition state (m : Machine W) : DriverState := _driverState (drv m).
Definition consecutiveFailures (m : Machine W) : N := _consecutiveFailures (drv m).
Definition totalFailures (m : Machine W) : N := _totalFailures (drv m).
Definition totalSuccess (m : Machine W) : N := _totalSuccess (drv m).
Definition lastOkMs (m : Machine W) : N := _lastOkMs (drv m).
Definition lastErrorMs (m : Machine W) : N := _lastErrorMs (drv m).
Definition lastError (m : Machine W) : Status := _lastError (drv m).

(** Something happens outside the driver between two calls (time passes,
    the device is unplugged): the driver object and the log stay. *)
Definition outside (f : W -> W) (m : Machine W) : Machine W :=
  mkMachine (drv m) (f (world m)) (calls m).

(** The operations issued on an initialized driver: the tracked register
    accesses and wrappers, [recover()], and the ones that keep out of the
    health accounting ([probe()], [tick()]). *)
Inductive Op : Type :=
| OpReadRegs (startReg : N) (buf : Buf) (len : N)
| OpWriteRegs (startReg : N) (buf : Buf) (len : N)
| OpWriteReadTracked (txBuf : Buf) (txLen : N) (rxBuf : Buf) (rxLen : N)
| OpWriteTracked (buf : Buf) (len : N)
| OpRecover
| OpProbe
| OpTick (nowMs : N)
| OpOutside (f : W -> W).

Definition exec (o : Op) (m : Machine W) : Machine W :=
  match o with
  | OpReadRegs r b l => after (readRegs millis r b l) m
  | OpWriteRegs r b l => after (writeRegs millis r b l) m
  | OpWriteReadTracked t tl r rl => after (_i2cWriteReadTracked millis t tl r rl) m
  | OpWriteTracked b l => after (_i2cWriteTracked millis b l) m
  | OpRecover => after (recover millis REG_CHIP_ID CHIP_ID_BME280) m
  | OpProbe => after (probe REG_CHIP_ID CHIP_ID_BME280) m
  | OpTick n => after (tick n) m
  | OpOutside f => outside f m
  end.

Definition exec_all (os : list Op) (m : Machine W) : Machine W :=
  fold_left (fun acc o => exec o acc) os m.

(** The machines a driver can be in after a successful [begin()] followed
    by any number of operations. *)
Inductive Reachable : Machine W -> Prop :=
| Reachable_begin (config : Config W) (m : Machine W) :
    ok (result (begin config) m) = true ->
    Reachable (after (begin config) m)
| Reachable_exec (o : Op) (m : Machine W) :
    Reachable m -> Reachable (exec o m).

(** A configuration [begin()] accepts: both callbacks set, timeout not 0. *)
Definition valid_config (c : Config W) : bool :=
  negb (isNull (i2cWrite c)) && negb (isNull (i2cWriteRead c))
  && negb (i2cTimeoutMs c =? 0).

(** A status that went through the failure branch of [_updateHealth]: an
    error outside the three classifications the wrappers hand back. *)
Definition health_failure (st : Status) : bool :=
  negb (ok st) && negb (untracked_code (code st)).

(** One register read, after the outside world has moved on. *)
Record ReadCall : Type := mkReadCall {
  rc_outside : W -> W;
  rc_startReg : N;
  rc_buf : Buf;
  rc_len : N
}.

Definition do_read (rc : ReadCall) : M W Status :=
  fun m =>
    let r := readRegs millis (rc_startReg rc) (rc_buf rc) (rc_len rc)
                      (outside (rc_outside rc) m) in
    (fst (fst r), snd r).

(** [failing_reads n m m']: [n] register reads in a row, each returning a
    failure that is health-tracked, lead from [m] to [m']. *)
Inductive failing_reads : nat -> Machine W -> Machine W -> Prop :=
| failing_reads_O (m : Machine W) : failing_reads O m m
| failing_reads_S (n : nat) (m m' : Machine W) (rc : ReadCall) :
    failing_reads n m m' ->
    health_failure (result (do_read rc) m') = true ->
    failing_reads (S n) m (after (do_read rc) m').

(** The comments on the values of [DriverState] in the header, read as a
    relation between the state and the consecutive-failure count. *)
Definition health_consistent (m : Machine W) : Prop :=
  let n := consecutiveFailures m in
  let thr := offlineThreshold (_config (drv m)) in
  (state m = READY <-> n = 0)
  /\ (state m = DEGRADED <-> 1 <= n /\ n < thr)
  /\ (state m = OFFLINE <-> thr <= n).

(** What a successful [begin()] establishes and every operation keeps. *)
Definition settled (m : Machine W) : Prop :=
  _initialized (drv m) = true
  /\ 1 <= offlineThreshold (_config (drv m))
  /\ i2cWrite (_config (drv m)) <> None
  /\ i2cWriteRead (_config (drv m)) <> None
  /\ health_consistent m.

(** [==] on [DriverState]. *)
Definition DriverState_eqb (a b : DriverState) : bool :=
  match a, b with
  | UNINIT, UNINIT | READY, READY | DEGRADED, DEGRADED | OFFLINE, OFFLINE =>
      true
  | _, _ => false
  end.

(** [bool isOnline() const] of the header. *)
Definition isOnline (m : Machine W) : bool :=
  DriverState_eqb (_driverState (drv m)) READY
  || DriverState_eqb (_driverState (drv m)) DEGRADED.

(** [end()] called [n] times. *)
Definition end_times (n : nat) (m : Machine W) : Machine W :=
  Nat.iter n (after end_) m.

(** What [if (x < max) x++] leaves in a 32-bit counter. *)
Definition bumped32 (x : N) : N := if x <? maxU32 then wrap32 (x + 1) else x.
(** What [if (x < max) x++] leaves in an 8-bit counter. *)
Definition bumped8 (x : N) : N := if x <? maxU8 then wrap8 (x + 1) else x.

End Runs.

(** ** A scripted transport for concrete runs *)

Module Mock.

(** The world of the mock: a clock and the responses the bus will give,
    in order. *)
Record World : Type := mkWorld {
  clock : N;
  script : list (Status * list N)
}.

Definition millis (w : World) : N := clock w.

Definition next (w : World) : (Status * list N) * World :=
  match script w with
  | [] => ((Error Err.I2C_ERROR "script exhausted" None, []),
           mkWorld (clock w + 1) [])
  | r :: rest => (r, mkWorld (clock w + 1) rest)
  end.

Definition i2cWriteRead : I2cWriteReadFn World :=
  fun _ _ _ _ _ _ _ w => next w.

Definition i2cWrite : I2cWriteFn World :=
  fun _ _ _ _ _ w => (fst (fst (next w)), snd (next w)).

(** Bus address, chip-id register and chip id of a BME280. *)
Definition ADDRESS : N := 118.
Definition REG_CHIP_ID : N := 208.
Definition CHIP_ID_BME280 : N := 96.

Definition config (threshold : N) : Config World :=
  mkConfig (Some i2cWrite) (Some i2cWriteRead) ADDRESS 50 0 threshold.

Definition no_config : Config World := mkConfig None None 0 0 0 0.

(** A driver object before [begin()], in front of a bus that will play
    [responses]. *)
Definition boot (responses : list (Status * list N)) : Machine World :=
  mkMachine (fresh no_config) (mkWorld 1000 responses) [].

Definition nack : Status * list N := (Error Err.I2C_ERROR "NACK" None, []).
Definition timeout : Status * list N := (Error Err.TIMEOUT "timeout" None, []).
Definition reply (bytes : list N) : Status * list N := (Ok, bytes).

(** A driver that went through [begin()] with the given threshold. *)
Definition started (threshold : N) (responses : list (Status * list N))
    : Machine World :=
  after (begin (config threshold)) (boot responses).

Definition read1 : ReadCall (W := World) :=
  mkReadCall (fun w => w) 247 (Some [0]) 1.

(** [n] register reads in a row. *)
Definition reads (n : nat) (m : Machine World) : Machine World :=
  Nat.iter n (after (do_read millis read1)) m.

(** A driver with threshold 3 that has seen two failed recoveries; the
    device now answering is not a BME280. *)
Definition degraded : Machine World :=
  exec_all millis REG_CHIP_ID CHIP_ID_BME280 [OpRecover; OpRecover]
           (started 3 [nack; timeout; reply [0]]).

(** A driver whose three counters sit at the top of their types. *)
Definition saturated : Machine World :=
  mkMachine
    (mkBME280 (config 3) true OFFLINE 7 9 (fst nack) maxU8 maxU32 maxU32)
    (mkWorld 2000 [nack; reply [96]; timeout]) [].

(** A bus that rejects the transfer as a parameter error. *)
Definition rejected : Status := Error Err.INVALID_PARAM "bad length" None.

End Mock.

(** * Properties *)

Section Properties.

Context {W : Type}.
Variable millis : W -> N.
Variable REG_CHIP_ID : N.
Variable CHIP_ID_BME280 : N.

Local Abbreviation recover' := (recover millis REG_CHIP_ID CHIP_ID_BME280).
Local Abbreviation probe' := (probe (W := W) REG_CHIP_ID CHIP_ID_BME280).
Local Abbreviation exec' := (exec millis REG_CHIP_ID CHIP_ID_BME280).
Local Abbreviation exec_all' := (exec_all millis REG_CHIP_ID CHIP_ID_BME280).
Local Abbreviation Reachable' := (Reachable millis REG_CHIP_ID CHIP_ID_BME280).

Create HintDb monad discriminated.
#[local] Hint Unfold bind member assign when ret call_millis
  result after : monad.

Create HintDb setters discriminated.
#[local] Hint Unfold set_config set_initialized set_driverState set_lastOkMs
  set_lastErrorMs set_lastError set_consecutiveFailures set_totalFailures
  set_totalSuccess set_offlineThreshold : setters.

#[local] Arguments _updateHealth : simpl never.
#[local] Arguments _i2cWriteReadRaw : simpl never.
#[local] Arguments _i2cWriteRaw : simpl never.
#[local] Arguments _i2cWriteReadTracked : simpl never.
#[local] Arguments _i2cWriteTracked : simpl never.
#[local] Arguments readRegs : simpl never.
#[local] Arguments writeRegs : simpl never.
#[local] Arguments rx_after : simpl never.
#[local] Arguments byte_of : simpl never.

(** Unfold the monadic plumbing and compute. *)
Ltac step_code := autounfold with monad; cbn.
Ltac field_code := autounfold with setters; cbn.

(** ** Fixed-width arithmetic *)

Lemma bumped32_below (x : N) : x < maxU32 -> bumped32 x = x + 1.
Proof.
  intros H. unfold bumped32, wrap32.
  destruct (N.ltb_spec x maxU32) as [_ | Hge]; [ | lia ].
  apply N.mod_small. unfold maxU32 in H. lia.
Qed.

Lemma bumped32_at_max (x : N) : maxU32 <= x -> bumped32 x = x.
Proof.
  intros H. unfold bumped32.
  destruct (N.ltb_spec x maxU32); [ lia | reflexivity ].
Qed.

Lemma bumped32_bounds (x : N) :
  x <= maxU32 -> x <= bumped32 x /\ bumped32 x <= maxU32.
Proof.
  intros H. destruct (N.lt_ge_cases x maxU32) as [Hlt | Hge].
  - rewrite (bumped32_below _ Hlt). lia.
  - rewrite (bumped32_at_max _ Hge). lia.
Qed.

Lemma bumped8_below (x : N) : x < maxU8 -> bumped8 x = x + 1.
Proof.
  intros H. unfold bumped8, wrap8.
  destruct (N.ltb_spec x maxU8) as [_ | Hge]; [ | lia ].
  apply N.mod_small. unfold maxU8 in H. lia.
Qed.

Lemma bumped8_at_max (x : N) : maxU8 <= x -> bumped8 x = x.
Proof.
  intros H. unfold bumped8.
  destruct (N.ltb_spec x maxU8); [ lia | reflexivity ].
Qed.

Lemma bumped8_positive (x : N) : 1 <= bumped8 x.
Proof.
  destruct (N.lt_ge_cases x maxU8) as [Hlt | Hge].
  - rewrite (bumped8_below _ Hlt). lia.
  - rewrite (bumped8_at_max _ Hge). unfold maxU8 in Hge. lia.
Qed.

(** ** The health update, as equations *)

Lemma updateHealth_uninit (st : Status) (m : Machine W) :
  _initialized (drv m) = false ->
  _updateHealth millis st m = (st, m).
Proof.
  intros Hi. unfold _updateHealth. step_code. rewrite Hi. reflexivity.
Qed.

Lemma updateHealth_ok (st : Status) (m : Machine W) :
  _initialized (drv m) = true ->
  ok st = true ->
  _updateHealth millis st m =
    (st,
     mkMachine
       (mkBME280 (_config (drv m)) true READY
                 (wrap32 (millis (world m)))
                 (_lastErrorMs (drv m)) (_lastError (drv m))
                 0 (_totalFailures (drv m))
                 (bumped32 (_totalSuccess (drv m))))
       (world m) (calls m)).
Proof.
  intros Hi Hok.
  unfold _updateHealth, bumped32. step_code. rewrite Hi, Hok. cbn.
  destruct (_totalSuccess (drv m) <? maxU32); field_code; rewrite ?Hi;
    reflexivity.
Qed.

Lemma updateHealth_error (st : Status) (m : Machine W) :
  _initialized (drv m) = true ->
  ok st = false ->
  _updateHealth millis st m =
    (st,
     mkMachine
       (mkBME280 (_config (drv m)) true
                 (if offlineThreshold (_config (drv m))
                     <=? bumped8 (_consecutiveFailures (drv m))
                  then OFFLINE else DEGRADED)
                 (_lastOkMs (drv m))
                 (wrap32 (millis (world m))) st
                 (bumped8 (_consecutiveFailures (drv m)))
                 (bumped32 (_totalFailures (drv m)))
                 (_totalSuccess (drv m)))
       (world m) (calls m)).
Proof.
  intros Hi Hok.
  unfold _updateHealth, bumped32, bumped8. step_code. rewrite Hi, Hok. cbn.
  destruct (_totalFailures (drv m) <? maxU32); cbn;
    destruct (_consecutiveFailures (drv m) <? maxU8); field_code;
    match goal with
    | |- context [ ?a <=? ?b ] => destruct (a <=? b)
    end; field_code; rewrite ?Hi; reflexivity.
Qed.

(** ** The transport wrappers *)

Lemma untracked_not_ok (st : Status) :
  untracked_code (code st) = true -> ok st = false.
Proof.
  unfold untracked_code, ok. destruct (code st); cbn; congruence.
Qed.

Lemma untracked_not_health_failure (st : Status) :
  untracked_code (code st) = true -> health_failure st = false.
Proof.
  intros H. unfold health_failure. rewrite H. apply andb_false_r.
Qed.

Lemma updateHealth_returns (st : Status) (m : Machine W) :
  fst (_updateHealth millis st m) = st.
Proof.
  destruct (_initialized (drv m)) eqn:Hi.
  - destruct (ok st) eqn:Hok.
    + rewrite (updateHealth_ok st m Hi Hok). reflexivity.
    + rewrite (updateHealth_error st m Hi Hok). reflexivity.
  - rewrite (updateHealth_uninit st m Hi). reflexivity.
Qed.

Lemma writeReadRaw_keeps_driver (tx : Buf) (txl : N) (rx : Buf) (rxl : N)
    (m : Machine W) :
  drv (after (_i2cWriteReadRaw tx txl rx rxl) m) = drv m.
Proof.
  unfold _i2cWriteReadRaw, invoke_i2cWriteRead. step_code.
  destruct (i2cWriteRead (_config (drv m))) as [f | ]; [ | reflexivity ].
  destruct (f _ _ _ _ _ _ _ _) as [[st written] w']. reflexivity.
Qed.

Lemma writeRaw_keeps_driver (buf : Buf) (len : N) (m : Machine W) :
  drv (after (_i2cWriteRaw buf len) m) = drv m.
Proof.
  unfold _i2cWriteRaw, invoke_i2cWrite. step_code.
  destruct (i2cWrite (_config (drv m))) as [f | ]; [ | reflexivity ].
  destruct (f _ _ _ _ _ _) as [st w']. reflexivity.
Qed.

(** A tracked write-read either leaves the driver object alone and hands
    back an error that is not health-tracked, or is a raw transfer followed
    by [_updateHealth] on the status it returns. *)
Lemma writeReadTracked_effect (tx : Buf) (txl : N) (rx : Buf) (rxl : N)
    (m : Machine W) :
  let r := _i2cWriteReadTracked millis tx txl rx rxl m in
  (drv (snd r) = drv m /\ ok (fst (fst r)) = false
   /\ health_failure (fst (fst r)) = false)
  \/ (exists m1 : Machine W,
        drv m1 = drv m /\ _initialized (drv m) = true
        /\ untracked_code (code (fst (fst r))) = false
        /\ snd r = after (_updateHealth millis (fst (fst r))) m1).
Proof.
  unfold _i2cWriteReadTracked. step_code.
  destruct (_initialized (drv m)) eqn:Hi; cbn; [ | left; auto ].
  destruct (isNull tx || (txl =? 0) || (0 <? rxl) && isNull rx); cbn;
    [ left; auto | ].
  pose proof (writeReadRaw_keeps_driver tx txl rx rxl m) as Hraw.
  unfold after in Hraw.
  destruct (_i2cWriteReadRaw tx txl rx rxl m) as [[st rx'] m1]. cbn in *.
  destruct (untracked_code (code st)) eqn:Hu; cbn.
  - left. auto using untracked_not_ok, untracked_not_health_failure.
  - right. exists m1.
    pose proof (updateHealth_returns st m1) as Hret. unfold after.
    destruct (_updateHealth millis st m1) as [st' m2] eqn:Hup.
    cbn in *. subst st'. rewrite ?Hup, Hu. repeat split; auto.
Qed.

Lemma writeTracked_effect (buf : Buf) (len : N) (m : Machine W) :
  let r := _i2cWriteTracked millis buf len m in
  (drv (snd r) = drv m /\ ok (fst r) = false /\ health_failure (fst r) = false)
  \/ (exists m1 : Machine W,
        drv m1 = drv m /\ _initialized (drv m) = true
        /\ untracked_code (code (fst r)) = false
        /\ snd r = after (_updateHealth millis (fst r)) m1).
Proof.
  unfold _i2cWriteTracked. step_code.
  destruct (_initialized (drv m)) eqn:Hi; cbn; [ | left; auto ].
  destruct (isNull buf || (len =? 0)); cbn; [ left; auto | ].
  pose proof (writeRaw_keeps_driver buf len m) as Hraw.
  unfold after in Hraw.
  destruct (_i2cWriteRaw buf len m) as [st m1]. cbn in *.
  destruct (untracked_code (code st)) eqn:Hu; cbn.
  - left. auto using untracked_not_ok, untracked_not_health_failure.
  - right. exists m1.
    pose proof (updateHealth_returns st m1) as Hret. unfold after.
    destruct (_updateHealth millis st m1) as [st' m2] eqn:Hup.
    cbn in *. subst st'. rewrite ?Hup, Hu. repeat split; auto.
Qed.

Lemma readRegs_effect (startReg : N) (buf : Buf) (len : N) (m : Machine W) :
  let r := readRegs millis startReg buf len m in
  (drv (snd r) = drv m /\ ok (fst (fst r)) = false
   /\ health_failure (fst (fst r)) = false)
  \/ (exists m1 : Machine W,
        drv m1 = drv m /\ _initialized (drv m) = true
        /\ untracked_code (code (fst (fst r))) = false
        /\ snd r = after (_updateHealth millis (fst (fst r))) m1).
Proof.
  unfold readRegs. step_code.
  destruct (_initialized (drv m)) eqn:Hi; cbn; [ | left; auto ].
  destruct (isNull buf || (len =? 0)); cbn; [ left; auto | ].
  pose proof (writeReadTracked_effect (Some [startReg]) 1 buf len m) as H.
  cbn in H. rewrite Hi in H. exact H.
Qed.

Lemma writeRegs_effect (startReg : N) (buf : Buf) (len : N) (m : Machine W) :
  let r := writeRegs millis startReg buf len m in
  (drv (snd r) = drv m /\ ok (fst r) = false /\ health_failure (fst r) = false)
  \/ (exists m1 : Machine W,
        drv m1 = drv m /\ _initialized (drv m) = true
        /\ untracked_code (code (fst r)) = false
        /\ snd r = after (_updateHealth millis (fst r)) m1).
Proof.
  unfold writeRegs. step_code.
  destruct (_initialized (drv m)) eqn:Hi; cbn; [ | left; auto ].
  destruct buf as [bytes | ]; cbn; [ | left; auto ].
  destruct (len =? 0); cbn; [ left; auto | ].
  destruct (MAX_WRITE_LEN <? len); cbn; [ left; auto | ].
  match goal with
  | |- context [ _i2cWriteTracked millis ?b ?l m ] =>
      pose proof (writeTracked_effect b l m) as H
  end.
  cbn in H. rewrite Hi in H. exact H.
Qed.

(** [recover()] touches the driver object only through its tracked
    transfer. *)
Lemma recover_effect (m : Machine W) :
  drv (after recover' m) = drv m
  \/ (exists (st : Status) (m1 : Machine W),
        drv m1 = drv m /\ _initialized (drv m) = true
        /\ after recover' m = after (_updateHealth millis st) m1).
Proof.
  unfold recover. step_code.
  destruct (_initialized (drv m)) eqn:Hi; cbn; [ | left; auto ].
  pose proof (writeReadTracked_effect (Some [REG_CHIP_ID]) 1 (Some [0]) 1 m)
    as H. cbn in H.
  destruct (_i2cWriteReadTracked millis (Some [REG_CHIP_ID]) 1 (Some [0]) 1 m)
    as [[st rx] m2]. cbn in *.
  assert (Hsame : forall r : Status * Machine W,
             snd r = m2 -> drv (snd r) = drv m
             \/ (exists (st0 : Status) (m1 : Machine W),
                   drv m1 = drv m /\ true = true
                   /\ snd r = snd (_updateHealth millis st0 m1))).
  { intros r Hr. rewrite Hr.
    destruct H as [[Hd _] | [m1 (Hd & _ & _ & Hm)]]; [ left; exact Hd | ].
    right. exists st, m1. auto. }
  destruct (negb (ok st)); [ apply Hsame; reflexivity | ].
  destruct (negb (byte_of rx =? CHIP_ID_BME280)); apply Hsame; reflexivity.
Qed.

Lemma probe_keeps_driver (m : Machine W) : drv (after probe' m) = drv m.
Proof.
  unfold probe. step_code.
  destruct (_initialized (drv m)) eqn:Hi; cbn; [ | reflexivity ].
  pose proof (writeReadRaw_keeps_driver (Some [REG_CHIP_ID]) 1 (Some [0]) 1 m)
    as H. unfold after in H.
  destruct (_i2cWriteReadRaw (Some [REG_CHIP_ID]) 1 (Some [0]) 1 m)
    as [[st rx] m1]. cbn in *.
  destruct (negb (ok st)); [ exact H | ].
  destruct (negb (byte_of rx =? CHIP_ID_BME280)); exact H.
Qed.

(** Every operation either leaves the driver object as it was or is one
    health update on it. *)
Lemma exec_effect (o : Op) (m : Machine W) :
  drv (exec' o m) = drv m
  \/ (exists (st : Status) (m1 : Machine W),
        drv m1 = drv m /\ _initialized (drv m) = true
        /\ exec' o m = after (_updateHealth millis st) m1).
Proof.
  destruct o as [r b l | r b l | t tl r rl | b l | | | n | f]; cbn [exec].
  - destruct (readRegs_effect r b l m) as [[Hd _] | [m1 (Hd & Hi & _ & Hm)]];
      [ left; exact Hd | right; eauto ].
  - destruct (writeRegs_effect r b l m) as [[Hd _] | [m1 (Hd & Hi & _ & Hm)]];
      [ left; exact Hd | right; eauto ].
  - destruct (writeReadTracked_effect t tl r rl m)
      as [[Hd _] | [m1 (Hd & Hi & _ & Hm)]];
      [ left; exact Hd | right; eauto ].
  - destruct (writeTracked_effect b l m) as [[Hd _] | [m1 (Hd & Hi & _ & Hm)]];
      [ left; exact Hd | right; eauto ].
  - apply recover_effect.
  - left. apply probe_keeps_driver.
  - left. reflexivity.
  - left. reflexivity.
Qed.

(** ** Lifecycle *)

Lemma begin_accepts (config : Config W) (m : Machine W) :
  i2cWrite config <> None ->
  i2cWriteRead config <> None ->
  i2cTimeoutMs config <> 0 ->
  begin config m =
    (Ok,
     mkMachine
       (mkBME280
          (if offlineThreshold config =? 0
           then set_offlineThreshold 1 config else config)
          true READY 0 0 Ok 0 0 0)
       (world m) (calls m)).
Proof.
  intros Hw Hwr Ht. unfold begin. step_code.
  destruct (i2cWrite config); [ | congruence ].
  destruct (i2cWriteRead config); [ | congruence ]. cbn.
  destruct (N.eqb_spec (i2cTimeoutMs config) 0); [ congruence | ]. cbn.
  destruct (offlineThreshold config =? 0); reflexivity.
Qed.

Lemma begin_rejects (config : Config W) (m : Machine W) :
  i2cWrite config = None \/ i2cWriteRead config = None
  \/ i2cTimeoutMs config = 0 ->
  code (result (begin config) m) = Err.INVALID_CONFIG
  /\ after (begin config) m =
       mkMachine (mkBME280 (_config (drv m)) false UNINIT 0 0 Ok 0 0 0)
                 (world m) (calls m).
Proof.
  intros H. unfold begin. step_code.
  destruct (i2cWrite config) as [fw | ]; cbn; [ | split; reflexivity ].
  destruct (i2cWriteRead config) as [fwr | ]; cbn; [ | split; reflexivity ].
  destruct (N.eqb_spec (i2cTimeoutMs config) 0) as [ | Hne]; cbn;
    [ split; reflexivity | ].
  destruct H as [H | [H | H]]; congruence.
Qed.

(** A successful [begin()] is one on a configuration it accepts. *)
Lemma begin_ok_inv (config : Config W) (m : Machine W) :
  ok (result (begin config) m) = true ->
  i2cWrite config <> None /\ i2cWriteRead config <> None
  /\ i2cTimeoutMs config <> 0.
Proof.
  intros Hok.
  destruct (i2cWrite config) as [fw | ] eqn:Hw;
    [ destruct (i2cWriteRead config) as [fwr | ] eqn:Hwr;
      [ destruct (N.eq_dec (i2cTimeoutMs config) 0) as [Ht | Ht] | ] | ].
  2: repeat split; congruence.
  all: exfalso;
    destruct (begin_rejects config m) as [Hc _];
    [ rewrite ?Hw, ?Hwr; auto
    | unfold ok in Hok; rewrite Hc in Hok; discriminate ].
Qed.

(** C4: for every configuration lacking a transport capability or with a
    timeout bound of zero, and whatever the driver went through before,
    [begin()] returns invalid-configuration, the state is uninitialized and
    the timestamps, the last error and the three counters are back at their
    zero or sentinel values. *)
Theorem begin_invalid_config_resets (config : Config W) (m : Machine W) :
  i2cWrite config = None \/ i2cWriteRead config = None
  \/ i2cTimeoutMs config = 0 ->
  let m' := after (begin config) m in
  code (result (begin config) m) = Err.INVALID_CONFIG
  /\ state m' = UNINIT
  /\ _initialized (drv m') = false
  /\ lastOkMs m' = 0 /\ lastErrorMs m' = 0 /\ lastError m' = Ok
  /\ consecutiveFailures m' = 0
  /\ totalFailures m' = 0 /\ totalSuccess m' = 0.
Proof.
  intros H m'. destruct (begin_rejects config m H) as [Hc Hm].
  subst m'. rewrite Hm. cbn. repeat split; auto.
Qed.

(** C5: for every configuration with both transport capabilities and a
    timeout bound above zero, [begin()] returns ok and right afterwards
    [state()] is ready, the three counters and both timestamps are zero,
    and an offline threshold of 0 is stored as 1. *)
Theorem begin_valid_config_ready (config : Config W) (m : Machine W) :
  i2cWrite config <> None ->
  i2cWriteRead config <> None ->
  0 < i2cTimeoutMs config ->
  let m' := after (begin config) m in
  result (begin config) m = Ok
  /\ state m' = READY
  /\ consecutiveFailures m' = 0
  /\ totalFailures m' = 0 /\ totalSuccess m' = 0
  /\ lastOkMs m' = 0 /\ lastErrorMs m' = 0
  /\ (offlineThreshold config = 0 ->
      offlineThreshold (_config (drv m')) = 1)
  /\ (offlineThreshold config <> 0 -> _config (drv m') = config).
Proof.
  intros Hw Hwr Ht m'.
  assert (Hne : i2cTimeoutMs config <> 0) by lia.
  subst m'. unfold result, after.
  rewrite (begin_accepts config m Hw Hwr Hne). cbn.
  repeat split; auto.
  - intros H0. rewrite H0. reflexivity.
  - intros H0. destruct (N.eqb_spec (offlineThreshold config) 0);
      [ contradiction | reflexivity ].
Qed.

Lemma end_twice (m : Machine W) : after end_ (after end_ m) = after end_ m.
Proof. unfold end_. step_code. reflexivity. Qed.

Lemma end_times_S (n : nat) (m : Machine W) :
  end_times (S n) m = after end_ m.
Proof.
  induction n as [ | n IH].
  - reflexivity.
  - change (end_times (S (S n)) m) with (after end_ (end_times (S n) m)).
    rewrite IH. apply end_twice.
Qed.

(** C9: [end()] is idempotent. From every driver state, calling it once or
    any number of times leaves the driver uninitialized, every further call
    changes nothing, and on a driver object that never saw [begin()] it
    changes nothing at all. *)
Theorem end_idempotent (n : nat) (m : Machine W) (c : Config W)
    (w : W) (log : list BusCall) :
  state (end_times (S n) m) = UNINIT
  /\ _initialized (drv (end_times (S n) m)) = false
  /\ end_times (S n) m = after end_ m
  /\ after end_ (after end_ m) = after end_ m
  /\ after end_ (mkMachine (fresh c) w log) = mkMachine (fresh c) w log.
Proof.
  rewrite end_times_S. repeat split.
Qed.

(** C6: a [probe()] that fails, because the raw transfer fails or because
    the identity byte is not the expected one, leaves the driver object as
    it was: state, counters, timestamps and last error are unchanged. *)
Theorem failing_probe_keeps_health (m : Machine W) :
  ok (result probe' m) = false ->
  let m' := after probe' m in
  drv m' = drv m
  /\ state m' = state m
  /\ consecutiveFailures m' = consecutiveFailures m
  /\ totalFailures m' = totalFailures m
  /\ totalSuccess m' = totalSuccess m
  /\ lastOkMs m' = lastOkMs m /\ lastErrorMs m' = lastErrorMs m
  /\ lastError m' = lastError m.
Proof.
  intros _ m'. subst m'.
  unfold state, consecutiveFailures, totalFailures, totalSuccess, lastOkMs,
    lastErrorMs, lastError.
  rewrite (probe_keeps_driver m). repeat split.
Qed.

(** ** The state follows the consecutive-failure count *)

Lemma settled_same_driver (m m' : Machine W) :
  drv m' = drv m -> settled m -> settled m'.
Proof.
  unfold settled, health_consistent, state, consecutiveFailures.
  intros ->. auto.
Qed.

Lemma begin_settles (config : Config W) (m : Machine W) :
  ok (result (begin config) m) = true -> settled (after (begin config) m).
Proof.
  intros Hok. destruct (begin_ok_inv config m Hok) as (Hw & Hwr & Ht).
  unfold after. rewrite (begin_accepts config m Hw Hwr Ht).
  unfold settled, health_consistent, state, consecutiveFailures. cbn.
  destruct (N.eqb_spec (offlineThreshold config) 0) as [H0 | H0]; cbn;
    repeat split; try congruence; try lia.
Qed.

Lemma updateHealth_settles (st : Status) (m : Machine W) :
  settled m -> settled (after (_updateHealth millis st) m).
Proof.
  intros (Hi & Hthr & Hw & Hwr & _). unfold after.
  destruct (ok st) eqn:Hok.
  - rewrite (updateHealth_ok st m Hi Hok).
    unfold settled, health_consistent, state, consecutiveFailures. cbn.
    repeat split; try congruence; try lia.
  - rewrite (updateHealth_error st m Hi Hok).
    unfold settled, health_consistent, state, consecutiveFailures. cbn.
    pose proof (bumped8_positive (_consecutiveFailures (drv m))) as Hpos.
    destruct (N.leb_spec (offlineThreshold (_config (drv m)))
                (bumped8 (_consecutiveFailures (drv m)))) as [Hle | Hgt];
      repeat split; try congruence; try lia.
Qed.

Lemma exec_settles (o : Op) (m : Machine W) : settled m -> settled (exec' o m).
Proof.
  intros Hs.
  destruct (exec_effect o m) as [Hd | (st & m1 & Hd & _ & Hm)].
  - exact (settled_same_driver _ _ Hd Hs).
  - rewrite Hm. apply updateHealth_settles.
    exact (settled_same_driver _ _ Hd Hs).
Qed.

Lemma Reachable_settled (m : Machine W) : Reachable' m -> settled m.
Proof.
  induction 1 as [config m Hok | o m _ IH].
  - exact (begin_settles config m Hok).
  - exact (exec_settles o m IH).
Qed.

(** C3: in every machine reached from a successful [begin()] by any
    sequence of operations, the state is ready iff the consecutive-failure
    count is zero, degraded iff the count is at least 1 and below the
    offline threshold, and offline iff the count is at least the
    threshold. *)
Theorem state_agrees_with_failure_count (m : Machine W) :
  Reachable' m ->
  let n := consecutiveFailures m in
  let thr := offlineThreshold (_config (drv m)) in
  (state m = READY <-> n = 0)
  /\ (state m = DEGRADED <-> 1 <= n /\ n < thr)
  /\ (state m = OFFLINE <-> thr <= n).
Proof.
  intros Hr. destruct (Reachable_settled m Hr) as (_ & _ & _ & _ & Hc).
  exact Hc.
Qed.

(** ** Saturating counters *)

Lemma updateHealth_counters (st : Status) (m : Machine W) :
  _initialized (drv m) = true ->
  let m' := after (_updateHealth millis st) m in
  (ok st = true /\ state m' = READY /\ consecutiveFailures m' = 0
   /\ totalSuccess m' = bumped32 (totalSuccess m)
   /\ totalFailures m' = totalFailures m)
  \/ (ok st = false
      /\ consecutiveFailures m' = bumped8 (consecutiveFailures m)
      /\ totalSuccess m' = totalSuccess m
      /\ totalFailures m' = bumped32 (totalFailures m)).
Proof.
  intros Hi. unfold after, state, consecutiveFailures, totalSuccess,
    totalFailures.
  destruct (ok st) eqn:Hok.
  - rewrite (updateHealth_ok st m Hi Hok). cbn. left. repeat split.
  - rewrite (updateHealth_error st m Hi Hok). cbn. right. repeat split.
Qed.

Lemma exec_counters (o : Op) (m : Machine W) :
  totalSuccess m <= maxU32 ->
  totalFailures m <= maxU32 ->
  consecutiveFailures m <= maxU8 ->
  let m' := exec' o m in
  (totalSuccess m <= totalSuccess m' /\ totalSuccess m' <= maxU32)
  /\ (totalFailures m <= totalFailures m' /\ totalFailures m' <= maxU32)
  /\ consecutiveFailures m' <= maxU8
  /\ (consecutiveFailures m = maxU8 ->
      consecutiveFailures m' = maxU8
      \/ (consecutiveFailures m' = 0 /\ state m' = READY)).
Proof.
  intros Hts Htf Hcf m'. subst m'.
  destruct (exec_effect o m) as [Hd | (st & m1 & Hd & Hi & Hm)].
  - unfold totalSuccess, totalFailures, consecutiveFailures, state in *.
    rewrite Hd. repeat split; auto; lia.
  - rewrite Hm. rewrite <- Hd in Hi.
    assert (Ets : totalSuccess m1 = totalSuccess m)
      by (unfold totalSuccess; congruence).
    assert (Etf : totalFailures m1 = totalFailures m)
      by (unfold totalFailures; congruence).
    assert (Ecf : consecutiveFailures m1 = consecutiveFailures m)
      by (unfold consecutiveFailures; congruence).
    destruct (updateHealth_counters st m1 Hi)
      as [(_ & Hst & Hc & Hs & Hf) | (_ & Hc & Hs & Hf)];
      rewrite Hc, Hs, Hf, ?Ets, ?Etf, ?Ecf.
    + pose proof (bumped32_bounds _ Hts). unfold maxU8. repeat split; auto; lia.
    + pose proof (bumped32_bounds _ Htf).
      destruct (N.lt_ge_cases (consecutiveFailures m) maxU8) as [Hlt | Hge].
      * rewrite (bumped8_below _ Hlt). repeat split; auto; lia.
      * rewrite (bumped8_at_max _ Hge). repeat split; auto; lia.
Qed.

Lemma exec_all_counters (os : list Op) (m : Machine W) :
  totalSuccess m <= maxU32 ->
  totalFailures m <= maxU32 ->
  consecutiveFailures m <= maxU8 ->
  let m' := exec_all' os m in
  (totalSuccess m <= totalSuccess m' /\ totalSuccess m' <= maxU32)
  /\ (totalFailures m <= totalFailures m' /\ totalFailures m' <= maxU32)
  /\ consecutiveFailures m' <= maxU8.
Proof.
  revert m. induction os as [ | o os IH]; intros m Hts Htf Hcf; cbn.
  - repeat split; auto; lia.
  - destruct (exec_counters o m Hts Htf Hcf) as ((Hs1 & Hs2) & (Hf1 & Hf2) & Hc & _).
    destruct (IH (exec' o m) Hs2 Hf2 Hc) as ((Hs3 & Hs4) & (Hf3 & Hf4) & Hc').
    unfold exec_all in *. repeat split; auto; lia.
Qed.

(** C8: whatever operations are issued, the lifetime success and failure
    counts never decrease and never pass the largest [uint32_t], so once at
    that value they stay there; the consecutive-failure count never passes
    the largest [uint8_t], and a failure recorded at that value leaves it
    there instead of wrapping to zero (only a recorded success, which makes
    the state ready, takes it back to zero). *)
Theorem counters_saturate (os : list Op) (o : Op) (st : Status)
    (m : Machine W) :
  totalSuccess m <= maxU32 ->
  totalFailures m <= maxU32 ->
  consecutiveFailures m <= maxU8 ->
  let m' := exec_all' os m in
  (totalSuccess m <= totalSuccess m' /\ totalSuccess m' <= maxU32)
  /\ (totalFailures m <= totalFailures m' /\ totalFailures m' <= maxU32)
  /\ consecutiveFailures m' <= maxU8
  /\ (totalSuccess m = maxU32 -> totalSuccess m' = maxU32)
  /\ (totalFailures m = maxU32 -> totalFailures m' = maxU32)
  /\ (consecutiveFailures m' = maxU8 ->
      consecutiveFailures (exec' o m') = maxU8
      \/ (consecutiveFailures (exec' o m') = 0 /\ state (exec' o m') = READY))
  /\ (_initialized (drv m') = true -> ok st = false ->
      consecutiveFailures m' = maxU8 ->
      consecutiveFailures (after (_updateHealth millis st) m') = maxU8).
Proof.
  intros Hts Htf Hcf m'.
  destruct (exec_all_counters os m Hts Htf Hcf)
    as ((Hs1 & Hs2) & (Hf1 & Hf2) & Hc).
  fold m' in Hs1, Hs2, Hf1, Hf2, Hc.
  repeat split; auto; try lia.
  - intros Hmax. destruct (exec_counters o m' Hs2 Hf2 Hc) as (_ & _ & _ & H).
    exact (H Hmax).
  - intros Hi Hok Hmax.
    destruct (updateHealth_counters st m' Hi)
      as [(Hok' & _) | (_ & Hcf' & _)]; [ congruence | ].
    rewrite Hcf', Hmax. reflexivity.
Qed.

(** ** Streaks of failing reads *)

Lemma health_failure_not_ok (st : Status) :
  health_failure st = true -> ok st = false.
Proof.
  unfold health_failure. destruct (ok st); cbn; congruence.
Qed.

Lemma do_read_effect (rc : ReadCall) (m : Machine W) :
  let st := result (do_read millis rc) m in
  let m' := after (do_read millis rc) m in
  (drv m' = drv m /\ ok st = false /\ health_failure st = false)
  \/ (exists m1 : Machine W,
        drv m1 = drv m /\ _initialized (drv m) = true
        /\ untracked_code (code st) = false
        /\ m' = after (_updateHealth millis st) m1).
Proof.
  unfold do_read, result, after. cbn.
  exact (readRegs_effect (rc_startReg rc) (rc_buf rc) (rc_len rc)
           (outside (rc_outside rc) m)).
Qed.

Lemma do_read_failure (rc : ReadCall) (m : Machine W) :
  health_failure (result (do_read millis rc) m) = true ->
  let m' := after (do_read millis rc) m in
  _initialized (drv m) = true
  /\ _initialized (drv m') = true
  /\ _config (drv m') = _config (drv m)
  /\ consecutiveFailures m' = bumped8 (consecutiveFailures m)
  /\ totalFailures m' = bumped32 (totalFailures m)
  /\ totalSuccess m' = totalSuccess m
  /\ state m' =
       (if offlineThreshold (_config (drv m)) <=? consecutiveFailures m'
        then OFFLINE else DEGRADED).
Proof.
  intros Hf m'. subst m'.
  destruct (do_read_effect rc m) as [(_ & _ & Hn) | (m1 & Hd & Hi & _ & Hm)];
    [ congruence | ].
  rewrite Hm. apply health_failure_not_ok in Hf.
  unfold after, consecutiveFailures, totalFailures, totalSuccess, state.
  assert (Hi1 : _initialized (drv m1) = true) by congruence.
  rewrite (updateHealth_error _ m1 Hi1 Hf). cbn. rewrite Hd.
  repeat split; auto.
Qed.

Lemma do_read_success (rc : ReadCall) (m : Machine W) :
  ok (result (do_read millis rc) m) = true ->
  let m' := after (do_read millis rc) m in
  _initialized (drv m) = true
  /\ state m' = READY
  /\ consecutiveFailures m' = 0
  /\ totalFailures m' = totalFailures m
  /\ totalSuccess m' = bumped32 (totalSuccess m).
Proof.
  intros Hok m'. subst m'.
  destruct (do_read_effect rc m) as [(_ & Hn & _) | (m1 & Hd & Hi & _ & Hm)];
    [ congruence | ].
  rewrite Hm.
  unfold after, consecutiveFailures, totalFailures, totalSuccess, state.
  assert (Hi1 : _initialized (drv m1) = true) by congruence.
  rewrite (updateHealth_ok _ m1 Hi1 Hok). cbn. rewrite Hd.
  repeat split; auto.
Qed.

(** After [n] failing reads in a row the consecutive-failure count and the
    lifetime failure count are [n] higher (short of their maxima), the
    success count is as before and the state is the one the threshold
    gives. *)
Lemma failing_reads_counts (n : nat) (m m' : Machine W) :
  failing_reads millis n m m' ->
  _initialized (drv m) = true ->
  _initialized (drv m') = true
  /\ _config (drv m') = _config (drv m)
  /\ totalSuccess m' = totalSuccess m
  /\ (consecutiveFailures m + N.of_nat n <= maxU8 ->
      consecutiveFailures m' = consecutiveFailures m + N.of_nat n)
  /\ (totalFailures m + N.of_nat n <= maxU32 ->
      totalFailures m' = totalFailures m + N.of_nat n)
  /\ (n <> O ->
      state m' =
        (if offlineThreshold (_config (drv m)) <=? consecutiveFailures m'
         then OFFLINE else DEGRADED)).
Proof.
  induction 1 as [m | n m m' rc _ IH Hf]; intros Hi.
  - repeat split; auto; try lia; congruence.
  - destruct (IH Hi) as (Hi' & Hcfg & Hts & Hcf & Htf & _).
    destruct (do_read_failure rc m' Hf) as (_ & Hi2 & Hcfg2 & Hcf2 & Htf2 & Hts2 & Hst2).
    repeat split.
    + exact Hi2.
    + congruence.
    + congruence.
    + intros Hb. rewrite Hcf2, Hcf by lia.
      rewrite bumped8_below by lia. lia.
    + intros Hb. rewrite Htf2, Htf by lia.
      rewrite bumped32_below by lia. lia.
    + intros _. rewrite Hst2, Hcfg. reflexivity.
Qed.

(** C2: with an offline threshold of 5 and a driver fresh out of a
    successful [begin()], after 4 failing tracked reads in a row the state
    is degraded and [consecutiveFailures] is 4; after a 5th the state is
    offline and [consecutiveFailures] is 5; after one successful tracked
    read the state is ready, [consecutiveFailures] is 0, [totalSuccess] is 1
    and [totalFailures] is 5. *)
Theorem threshold_five_scenario (config : Config W) (m0 m4 m5 : Machine W)
    (rc : ReadCall) :
  i2cWrite config <> None ->
  i2cWriteRead config <> None ->
  0 < i2cTimeoutMs config ->
  offlineThreshold config = 5 ->
  failing_reads millis 4 (after (begin config) m0) m4 ->
  failing_reads millis 1 m4 m5 ->
  ok (result (do_read millis rc) m5) = true ->
  let m6 := after (do_read millis rc) m5 in
  (state m4 = DEGRADED /\ consecutiveFailures m4 = 4)
  /\ (state m5 = OFFLINE /\ consecutiveFailures m5 = 5)
  /\ (state m6 = READY /\ consecutiveFailures m6 = 0
      /\ totalSuccess m6 = 1 /\ totalFailures m6 = 5).
Proof.
  intros Hw Hwr Ht Hthr H4 H1 Hok m6.
  assert (Hne : i2cTimeoutMs config <> 0) by lia.
  pose proof (begin_accepts config m0 Hw Hwr Hne) as Hb.
  remember (after (begin config) m0) as m1 eqn:E1.
  unfold after in E1. rewrite Hb in E1. cbn in E1.
  rewrite Hthr in E1. cbn in E1.
  assert (Hi1 : _initialized (drv m1) = true) by (subst m1; reflexivity).
  destruct (failing_reads_counts _ _ _ H4 Hi1) as (Hi4 & Hc4 & Hs4 & Hcf4 & Htf4 & Hst4).
  destruct (failing_reads_counts _ _ _ H1 Hi4) as (Hi5 & Hc5 & Hs5 & Hcf5 & Htf5 & Hst5).
  destruct (do_read_success rc m5 Hok) as (_ & Hst6 & Hcf6 & Htf6 & Hts6).
  fold m6 in Hst6, Hcf6, Htf6, Hts6.
  assert (Ecf1 : consecutiveFailures m1 = 0) by (subst m1; reflexivity).
  assert (Etf1 : totalFailures m1 = 0) by (subst m1; reflexivity).
  assert (Ets1 : totalSuccess m1 = 0) by (subst m1; reflexivity).
  assert (Ethr : offlineThreshold (_config (drv m1)) = 5)
    by (subst m1; cbn; exact Hthr).
  rewrite Ecf1 in Hcf4. rewrite Etf1 in Htf4. cbn in Hcf4, Htf4.
  specialize (Hcf4 ltac:(unfold maxU8; lia)).
  specialize (Htf4 ltac:(unfold maxU32; lia)).
  specialize (Hst4 ltac:(discriminate)).
  rewrite Hcf4 in Hcf5. rewrite Htf4 in Htf5. cbn in Hcf5, Htf5.
  specialize (Hcf5 ltac:(unfold maxU8; lia)).
  specialize (Htf5 ltac:(unfold maxU32; lia)).
  specialize (Hst5 ltac:(discriminate)).
  rewrite Hc4, Ethr, Hcf5 in Hst5. rewrite Ethr, Hcf4 in Hst4.
  cbn in Hst4, Hst5.
  rewrite Htf5 in Htf6. rewrite Hs5, Hs4, Ets1 in Hts6.
  repeat split; assumption.
Qed.

(** ** What the tracked wrappers do with the transport's answer *)

Lemma writeReadTracked_invokes (f : I2cWriteReadFn W) (tx : Buf) (txl : N)
    (rx : Buf) (rxl : N) (m : Machine W) (st : Status) (written : list N)
    (w' : W) :
  _initialized (drv m) = true ->
  tx <> None -> txl <> 0 -> (0 < rxl -> rx <> None) ->
  i2cWriteRead (_config (drv m)) = Some f ->
  f (i2cAddress (_config (drv m))) tx txl rx rxl
    (i2cTimeoutMs (_config (drv m))) (i2cUser (_config (drv m))) (world m)
  = ((st, written), w') ->
  let m1 :=
    mkMachine (drv m) w'
      (calls m ++ [CallWriteRead (i2cAddress (_config (drv m))) tx txl rx rxl
                     (i2cTimeoutMs (_config (drv m)))
                     (i2cUser (_config (drv m)))]) in
  _i2cWriteReadTracked millis tx txl rx rxl m =
    if untracked_code (code st) then ((st, rx_after rx written), m1)
    else ((st, rx_after rx written), after (_updateHealth millis st) m1).
Proof.
  intros Hi Htx Htxl Hrx Hf Hcall m1. subst m1.
  unfold _i2cWriteReadTracked, _i2cWriteReadRaw, invoke_i2cWriteRead.
  step_code. rewrite Hi. cbn.
  destruct tx as [txb | ]; [ | congruence ].
  destruct (N.eqb_spec txl 0); [ congruence | ]. cbn.
  assert (Hchk : (0 <? rxl) && isNull rx = false).
  { destruct (N.ltb_spec 0 rxl) as [Hpos | ]; [ | reflexivity ].
    destruct rx; [ reflexivity | ]. exfalso. exact (Hrx Hpos eq_refl). }
  rewrite Hchk. cbn. rewrite Hf, Hcall. cbn.
  destruct (untracked_code (code st)); [ reflexivity | ].
  match goal with
  | |- context [ _updateHealth millis st ?x ] =>
      pose proof (updateHealth_returns st x) as Hret;
      destruct (_updateHealth millis st x) as [st' m2]
  end.
  cbn in *. subst st'. reflexivity.
Qed.

Lemma writeTracked_invokes (f : I2cWriteFn W) (buf : Buf) (len : N)
    (m : Machine W) (st : Status) (w' : W) :
  _initialized (drv m) = true ->
  buf <> None -> len <> 0 ->
  i2cWrite (_config (drv m)) = Some f ->
  f (i2cAddress (_config (drv m))) buf len
    (i2cTimeoutMs (_config (drv m))) (i2cUser (_config (drv m))) (world m)
  = (st, w') ->
  let m1 :=
    mkMachine (drv m) w'
      (calls m ++ [CallWrite (i2cAddress (_config (drv m))) buf len
                     (i2cTimeoutMs (_config (drv m)))
                     (i2cUser (_config (drv m)))]) in
  _i2cWriteTracked millis buf len m =
    if untracked_code (code st) then (st, m1)
    else (st, after (_updateHealth millis st) m1).
Proof.
  intros Hi Hbuf Hlen Hf Hcall m1. subst m1.
  unfold _i2cWriteTracked, _i2cWriteRaw, invoke_i2cWrite.
  step_code. rewrite Hi. cbn.
  destruct buf as [b | ]; [ | congruence ].
  destruct (N.eqb_spec len 0); [ congruence | ]. cbn.
  rewrite Hf, Hcall. cbn.
  destruct (untracked_code (code st)); [ reflexivity | ].
  match goal with
  | |- context [ _updateHealth millis st ?x ] =>
      pose proof (updateHealth_returns st x) as Hret;
      destruct (_updateHealth millis st x) as [st' m2]
  end.
  cbn in *. subst st'. reflexivity.
Qed.

(** C10: on an initialized driver, when the injected callback itself
    answers not-initialized, invalid-configuration or invalid-parameter,
    [_i2cWriteReadTracked] and [_i2cWriteTracked] return that answer and
    the driver object (state and every health counter) is as before,
    although the callback was invoked. *)
Theorem untracked_transport_answer_skips_health (m : Machine W) (st : Status)
    (w' : W) :
  _initialized (drv m) = true ->
  code st = Err.NOT_INITIALIZED \/ code st = Err.INVALID_CONFIG
  \/ code st = Err.INVALID_PARAM ->
  let addr := i2cAddress (_config (drv m)) in
  let tmo := i2cTimeoutMs (_config (drv m)) in
  let usr := i2cUser (_config (drv m)) in
  (forall (f : I2cWriteReadFn W) (tx : Buf) (txl : N) (rx : Buf) (rxl : N)
          (written : list N),
      tx <> None -> txl <> 0 -> (0 < rxl -> rx <> None) ->
      i2cWriteRead (_config (drv m)) = Some f ->
      f addr tx txl rx rxl tmo usr (world m) = ((st, written), w') ->
      let r := _i2cWriteReadTracked millis tx txl rx rxl m in
      fst (fst r) = st
      /\ drv (snd r) = drv m
      /\ calls (snd r) = calls m ++ [CallWriteRead addr tx txl rx rxl tmo usr])
  /\ (forall (f : I2cWriteFn W) (buf : Buf) (len : N),
      buf <> None -> len <> 0 ->
      i2cWrite (_config (drv m)) = Some f ->
      f addr buf len tmo usr (world m) = (st, w') ->
      let r := _i2cWriteTracked millis buf len m in
      fst r = st
      /\ drv (snd r) = drv m
      /\ calls (snd r) = calls m ++ [CallWrite addr buf len tmo usr]).
Proof.
  intros Hi Hcode addr tmo usr.
  assert (Hu : untracked_code (code st) = true).
  { unfold untracked_code. destruct Hcode as [-> | [-> | ->]]; reflexivity. }
  split.
  - intros f tx txl rx rxl written Htx Htxl Hrx Hf Hcall r. subst r.
    rewrite (writeReadTracked_invokes f tx txl rx rxl m st written w' Hi Htx Htxl Hrx Hf
               Hcall).
    rewrite Hu. cbn. repeat split.
  - intros f buf len Hbuf Hlen Hf Hcall r. subst r.
    rewrite (writeTracked_invokes f buf len m st w' Hi Hbuf Hlen Hf Hcall).
    rewrite Hu. cbn. repeat split.
Qed.

(** ** Register write framing *)

Lemma frame_full (startReg : N) (bytes : list N) :
  length bytes = 16%nat ->
  memcpy (array_set (repeat 0 (N.to_nat (MAX_WRITE_LEN + 1))) 0 startReg)
         1 bytes (N.to_nat 16)
  = startReg :: bytes.
Proof.
  intros Hlen. unfold memcpy, array_set.
  change (N.to_nat (MAX_WRITE_LEN + 1)) with 17%nat.
  change (N.to_nat 16) with 16%nat.
  rewrite (firstn_all2 (n := 16) bytes) by lia.
  cbn. rewrite app_nil_r. reflexivity.
Qed.

(** C7: on an initialized driver, [writeRegs] with a non-null buffer of 16
    bytes and length 16 invokes the write callback once, with the address
    byte followed by the 16 payload bytes and length 17, and succeeds when
    the callback does; with length 17 it returns invalid-parameter and the
    machine, the log of callback invocations included, is as before. *)
Theorem writeRegs_payload_bound (f : I2cWriteFn W) (startReg : N)
    (bytes : list N) (m : Machine W) :
  _initialized (drv m) = true ->
  i2cWrite (_config (drv m)) = Some f ->
  let addr := i2cAddress (_config (drv m)) in
  let tmo := i2cTimeoutMs (_config (drv m)) in
  let usr := i2cUser (_config (drv m)) in
  (length bytes = 16%nat ->
   let frame := Some (startReg :: bytes) in
   let r := writeRegs millis startReg (Some bytes) 16 m in
   calls (snd r) = calls m ++ [CallWrite addr frame 17 tmo usr]
   /\ fst r = fst (f addr frame 17 tmo usr (world m))
   /\ (ok (fst (f addr frame 17 tmo usr (world m))) = true ->
       ok (fst r) = true))
  /\ (let r := writeRegs millis startReg (Some bytes) 17 m in
      code (fst r) = Err.INVALID_PARAM /\ snd r = m).
Proof.
  intros Hi Hf addr tmo usr. split.
  - intros Hlen frame r. subst r frame.
    unfold writeRegs. cbv zeta.
    rewrite (frame_full startReg bytes Hlen).
    step_code. rewrite Hi. cbn.
    destruct (f addr (Some (startReg :: bytes)) 17 tmo usr (world m))
      as [st w'] eqn:Hcall.
    rewrite (writeTracked_invokes f (Some (startReg :: bytes)) 17 m st w' Hi
               ltac:(discriminate) ltac:(discriminate) Hf Hcall).
    cbn. destruct (untracked_code (code st)); cbn.
    + repeat split; auto.
    + unfold after.
      match goal with
      | |- context [ _updateHealth millis st ?x ] => set (m1 := x)
      end.
      assert (Hi1 : _initialized (drv m1) = true) by exact Hi.
      destruct (ok st) eqn:Hok.
      * rewrite (updateHealth_ok st m1 Hi1 Hok). cbn. repeat split; auto.
      * rewrite (updateHealth_error st m1 Hi1 Hok). cbn. repeat split; auto.
  - unfold writeRegs. step_code. rewrite Hi. cbn.
    destruct m; split; reflexivity.
Qed.

(** ** Recovery *)

(** C1, as the code has it: on an initialized driver, when the tracked
    write-read of [recover()] succeeds but the byte read is not the expected
    chip id, [recover()] returns chip-identity-mismatch carrying that byte,
    and the health state machine has recorded the transfer as a success:
    the consecutive-failure count is zero, the state is ready, the lifetime
    success count went up (short of its maximum), and the lifetime failure
    count and the last error are as before. *)
Theorem recover_mismatch_after_tracked_success (f : I2cWriteReadFn W)
    (m : Machine W) (st : Status) (written : list N) (w' : W) :
  _initialized (drv m) = true ->
  i2cWriteRead (_config (drv m)) = Some f ->
  f (i2cAddress (_config (drv m))) (Some [REG_CHIP_ID]) 1 (Some [0]) 1
    (i2cTimeoutMs (_config (drv m))) (i2cUser (_config (drv m))) (world m)
  = ((st, written), w') ->
  ok st = true ->
  byte_of (rx_after (Some [0]) written) <> CHIP_ID_BME280 ->
  let m' := after recover' m in
  result recover' m =
    Error Err.CHIP_ID_MISMATCH "Chip ID mismatch"
          (Some (byte_of (rx_after (Some [0]) written)))
  /\ consecutiveFailures m' = 0
  /\ state m' = READY
  /\ totalSuccess m' = bumped32 (totalSuccess m)
  /\ totalFailures m' = totalFailures m
  /\ lastError m' = lastError m
  /\ lastErrorMs m' = lastErrorMs m
  /\ lastOkMs m' = wrap32 (millis w').
Proof.
  intros Hi Hf Hcall Hok Hid m'. subst m'.
  assert (Hu : untracked_code (code st) = false).
  { unfold ok in Hok. unfold untracked_code.
    destruct (code st); cbn in *; congruence. }
  unfold recover, result, after. step_code. rewrite Hi. cbn.
  rewrite (writeReadTracked_invokes f (Some [REG_CHIP_ID]) 1 (Some [0]) 1 m
             st written w' Hi ltac:(discriminate) ltac:(discriminate)
             ltac:(discriminate) Hf Hcall).
  rewrite Hu. cbn. rewrite Hok. cbn.
  destruct (N.eqb_spec (byte_of (rx_after (Some [0]) written)) CHIP_ID_BME280)
    as [Heq | _]; [ contradiction | ]. cbn.
  unfold after.
  match goal with
  | |- context [ _updateHealth millis st ?x ] => set (m1 := x)
  end.
  assert (Hi1 : _initialized (drv m1) = true) by exact Hi.
  rewrite (updateHealth_ok st m1 Hi1 Hok). cbn. repeat split.
Qed.

(** * Further properties of the driver *)

(** ** Calls on a driver that is not initialized *)

Lemma probe_uninit (m : Machine W) :
  _initialized (drv m) = false ->
  probe' m = (Error Err.NOT_INITIALIZED "begin() not called" None, m).
Proof. intros Hi. unfold probe. step_code. rewrite Hi. reflexivity. Qed.

Lemma recover_uninit (m : Machine W) :
  _initialized (drv m) = false ->
  recover' m = (Error Err.NOT_INITIALIZED "begin() not called" None, m).
Proof. intros Hi. unfold recover. step_code. rewrite Hi. reflexivity. Qed.

Lemma readRegs_uninit (startReg : N) (buf : Buf) (len : N) (m : Machine W) :
  _initialized (drv m) = false ->
  readRegs millis startReg buf len m
  = ((Error Err.NOT_INITIALIZED "begin() not called" None, buf), m).
Proof. intros Hi. unfold readRegs. step_code. rewrite Hi. reflexivity. Qed.

Lemma writeRegs_uninit (startReg : N) (buf : Buf) (len : N) (m : Machine W) :
  _initialized (drv m) = false ->
  writeRegs millis startReg buf len m
  = (Error Err.NOT_INITIALIZED "begin() not called" None, m).
Proof. intros Hi. unfold writeRegs. step_code. rewrite Hi. reflexivity. Qed.

Lemma writeReadTracked_uninit (tx : Buf) (txl : N) (rx : Buf) (rxl : N)
    (m : Machine W) :
  _initialized (drv m) = false ->
  _i2cWriteReadTracked millis tx txl rx rxl m
  = ((Error Err.NOT_INITIALIZED "begin() not called" None, rx), m).
Proof.
  intros Hi. unfold _i2cWriteReadTracked. step_code. rewrite Hi. reflexivity.
Qed.

Lemma writeTracked_uninit (buf : Buf) (len : N) (m : Machine W) :
  _initialized (drv m) = false ->
  _i2cWriteTracked millis buf len m
  = (Error Err.NOT_INITIALIZED "begin() not called" None, m).
Proof.
  intros Hi. unfold _i2cWriteTracked. step_code. rewrite Hi. reflexivity.
Qed.

Lemma exec_uninit (o : Op) (m : Machine W) :
  _initialized (drv m) = false ->
  drv (exec' o m) = drv m /\ calls (exec' o m) = calls m
  /\ ((forall f : W -> W, o <> OpOutside f) -> exec' o m = m).
Proof.
  intros Hi.
  destruct o as [r b l | r b l | t tl r rl | b l | | | n | f];
    cbn [exec]; unfold after.
  - rewrite (readRegs_uninit r b l m Hi). cbn. auto.
  - rewrite (writeRegs_uninit r b l m Hi). cbn. auto.
  - rewrite (writeReadTracked_uninit t tl r rl m Hi). cbn. auto.
  - rewrite (writeTracked_uninit b l m Hi). cbn. auto.
  - rewrite (recover_uninit m Hi). cbn. auto.
  - rewrite (probe_uninit m Hi). cbn. auto.
  - cbn. auto.
  - cbn. repeat split. intros Hg. destruct (Hg f eq_refl).
Qed.

(** X1: on a driver that is not initialized, [probe], [recover], [readRegs],
    [writeRegs] and both tracked wrappers return not-initialized and leave
    the machine exactly as it was: no callback is invoked, no counter
    moves. *)
Theorem uninitialized_calls_are_refused (m : Machine W) (startReg : N)
    (buf : Buf) (len : N) (tx : Buf) (txl : N) (rx : Buf) (rxl : N) :
  _initialized (drv m) = false ->
  let refused := Error Err.NOT_INITIALIZED "begin() not called" None in
  probe' m = (refused, m)
  /\ recover' m = (refused, m)
  /\ readRegs millis startReg buf len m = ((refused, buf), m)
  /\ writeRegs millis startReg buf len m = (refused, m)
  /\ _i2cWriteReadTracked millis tx txl rx rxl m = ((refused, rx), m)
  /\ _i2cWriteTracked millis buf len m = (refused, m).
Proof.
  intros Hi refused. subst refused.
  split; [ exact (probe_uninit m Hi) | ].
  split; [ exact (recover_uninit m Hi) | ].
  split; [ exact (readRegs_uninit startReg buf len m Hi) | ].
  split; [ exact (writeRegs_uninit startReg buf len m Hi) | ].
  split; [ exact (writeReadTracked_uninit tx txl rx rxl m Hi) | ].
  exact (writeTracked_uninit buf len m Hi).
Qed.

(** X2: after [end()], whatever sequence of operations is issued, the
    driver object stays as [end()] left it and no callback is invoked, until
    the next [begin()]. *)
Theorem operations_after_end_are_inert (os : list Op) (m : Machine W) :
  drv (exec_all' os (after end_ m)) = drv (after end_ m)
  /\ calls (exec_all' os (after end_ m)) = calls m
  /\ state (exec_all' os (after end_ m)) = UNINIT.
Proof.
  assert (Hgen : forall (l : list Op) (x : Machine W),
             _initialized (drv x) = false ->
             drv (exec_all' l x) = drv x /\ calls (exec_all' l x) = calls x).
  { induction l as [ | o l IH]; intros x Hx; [ split; reflexivity | ].
    destruct (exec_uninit o x Hx) as (Hd & Hc & _).
    change (exec_all' (o :: l) x) with (exec_all' l (exec' o x)).
    destruct (IH (exec' o x)) as [Hd' Hc']; [ rewrite Hd; exact Hx | ].
    split; congruence. }
  destruct (Hgen os (after end_ m) eq_refl) as [Hd Hc].
  repeat split; [ exact Hd | exact Hc | unfold state; rewrite Hd; reflexivity ].
Qed.

(** ** Argument checks *)

(** X3: on an initialized driver, [_i2cWriteReadTracked] with a null
    transmit buffer, a zero transmit length, or a null receive buffer with a
    non-zero receive length, and [_i2cWriteTracked] with a null buffer or a
    zero length, return invalid-parameter and leave the machine as it was:
    no callback is invoked and the health counters do not move. *)
Theorem tracked_wrappers_check_buffers (m : Machine W) (tx : Buf) (txl : N)
    (rx : Buf) (rxl : N) (buf : Buf) (len : N) :
  _initialized (drv m) = true ->
  let invalid := Error Err.INVALID_PARAM "Invalid I2C buffer" None in
  (tx = None \/ txl = 0 \/ (0 < rxl /\ rx = None) ->
   _i2cWriteReadTracked millis tx txl rx rxl m = ((invalid, rx), m))
  /\ (buf = None \/ len = 0 ->
      _i2cWriteTracked millis buf len m = (invalid, m)).
Proof.
  intros Hi invalid. subst invalid. split.
  - intros Hbad. unfold _i2cWriteReadTracked. step_code. rewrite Hi. cbn.
    assert (Hchk : isNull tx || (txl =? 0) || (0 <? rxl) && isNull rx = true).
    { destruct Hbad as [-> | [-> | [Hpos ->]]].
      - reflexivity.
      - rewrite orb_true_r. reflexivity.
      - apply N.ltb_lt in Hpos. rewrite Hpos. cbn. apply orb_true_r. }
    rewrite Hchk. reflexivity.
  - intros Hbad. unfold _i2cWriteTracked. step_code. rewrite Hi. cbn.
    assert (Hchk : isNull buf || (len =? 0) = true).
    { destruct Hbad as [-> | ->]; [ reflexivity | apply orb_true_r ]. }
    rewrite Hchk. reflexivity.
Qed.

(** X4: on an initialized driver, [readRegs] with a null buffer or a zero
    length, and [writeRegs] with a null buffer, a zero length or a length
    above [MAX_WRITE_LEN], return invalid-parameter and leave the machine as
    it was: no callback is invoked and the health counters do not move. *)
Theorem register_access_checks_arguments (m : Machine W) (startReg : N)
    (buf : Buf) (len : N) :
  _initialized (drv m) = true ->
  (buf = None \/ len = 0 ->
   readRegs millis startReg buf len m
   = ((Error Err.INVALID_PARAM "Invalid read buffer" None, buf), m))
  /\ (buf = None \/ len = 0 ->
      writeRegs millis startReg buf len m
      = (Error Err.INVALID_PARAM "Invalid write buffer" None, m))
  /\ (buf <> None -> MAX_WRITE_LEN < len ->
      writeRegs millis startReg buf len m
      = (Error Err.INVALID_PARAM "Write length too large" None, m)).
Proof.
  intros Hi. repeat split.
  - intros Hbad. unfold readRegs. step_code. rewrite Hi. cbn.
    assert (Hchk : isNull buf || (len =? 0) = true).
    { destruct Hbad as [-> | ->]; [ reflexivity | apply orb_true_r ]. }
    rewrite Hchk. reflexivity.
  - intros Hbad. unfold writeRegs. step_code. rewrite Hi. cbn.
    destruct buf as [bytes | ]; [ | reflexivity ].
    destruct Hbad as [Hn | ->]; [ discriminate | reflexivity ].
  - intros Hbuf Hlen. unfold writeRegs. step_code. rewrite Hi. cbn.
    destruct buf as [bytes | ]; [ | congruence ].
    destruct (N.eqb_spec len 0) as [-> | _];
      [ unfold MAX_WRITE_LEN in Hlen; lia | ].
    apply N.ltb_lt in Hlen. rewrite Hlen. reflexivity.
Qed.

(** ** What reaches the bus *)

Lemma frame_prefix (startReg : N) (bytes : list N) (n : nat) :
  (n <= 16)%nat ->
  memcpy (array_set (repeat 0 (N.to_nat (MAX_WRITE_LEN + 1))) 0 startReg)
         1 bytes n
  = startReg :: firstn n bytes ++ repeat 0 (16 - n).
Proof.
  intros Hn. unfold memcpy, array_set.
  change (N.to_nat (MAX_WRITE_LEN + 1)) with 17%nat.
  change (firstn 1 (firstn 0 (repeat 0 17) ++ startReg :: skipn 1 (repeat 0 17)))
    with [startReg].
  change (skipn (1 + n) (firstn 0 (repeat 0 17) ++ startReg :: skipn 1 (repeat 0 17)))
    with (skipn n (repeat 0 16)).
  replace (skipn n (repeat 0 16)) with (repeat (0 : N) (16 - n)).
  - reflexivity.
  - do 17 (destruct n as [ | n]; [ reflexivity | ]). lia.
Qed.

(** X5: on an initialized driver, [writeRegs] with a buffer of at least
    [len] bytes and [1 <= len <= 16] invokes the write callback once, with
    length [len + 1] and a 17-byte frame made of the register address, the
    first [len] payload bytes and zero padding, and returns the callback's
    status unchanged. *)
Theorem writeRegs_frames_payload (f : I2cWriteFn W) (startReg : N)
    (bytes : list N) (len : N) (m : Machine W) (st : Status) (w' : W) :
  _initialized (drv m) = true ->
  i2cWrite (_config (drv m)) = Some f ->
  1 <= len -> len <= MAX_WRITE_LEN ->
  (N.to_nat len <= length bytes)%nat ->
  let addr := i2cAddress (_config (drv m)) in
  let tmo := i2cTimeoutMs (_config (drv m)) in
  let usr := i2cUser (_config (drv m)) in
  let frame :=
    startReg :: firstn (N.to_nat len) bytes
      ++ repeat 0 (16 - N.to_nat len) in
  f addr (Some frame) (len + 1) tmo usr (world m) = (st, w') ->
  let r := writeRegs millis startReg (Some bytes) len m in
  fst r = st
  /\ calls (snd r) = calls m ++ [CallWrite addr (Some frame) (len + 1) tmo usr]
  /\ world (snd r) = w'
  /\ length frame = 17%nat.
Proof.
  intros Hi Hf Hlo Hhi Hbuf addr tmo usr frame Hcall r.
  unfold MAX_WRITE_LEN in Hhi.
  assert (Hlen : length frame = 17%nat).
  { subst frame. cbn [length]. rewrite length_app, length_firstn, repeat_length.
    lia. }
  subst r. unfold writeRegs. cbv zeta.
  rewrite (frame_prefix startReg bytes (N.to_nat len)) by lia.
  fold frame. step_code. rewrite Hi. cbn.
  destruct (N.eqb_spec len 0) as [H0 | _]; [ lia | ].
  destruct (N.ltb_spec MAX_WRITE_LEN len) as [Hgt | _];
    [ unfold MAX_WRITE_LEN in Hgt; lia | ].
  rewrite (writeTracked_invokes f (Some frame) (len + 1) m st w' Hi
             ltac:(discriminate) ltac:(lia) Hf Hcall).
  destruct (untracked_code (code st)); cbn; [ repeat split; auto | ].
  unfold after.
  match goal with
  | |- context [ _updateHealth millis st ?x ] => set (m1 := x)
  end.
  assert (Hi1 : _initialized (drv m1) = true) by exact Hi.
  destruct (ok st) eqn:Hok.
  - rewrite (updateHealth_ok st m1 Hi1 Hok). cbn. repeat split; auto.
  - rewrite (updateHealth_error st m1 Hi1 Hok). cbn. repeat split; auto.
Qed.

(** X6: on an initialized driver, [readRegs] with a non-null buffer and a
    non-zero length invokes the write-read callback once, transmitting the
    single register-address byte and asking for [len] bytes into the
    caller's buffer; it returns the callback's status unchanged and the
    buffer holds what the callback stored. *)
Theorem readRegs_passes_transfer (f : I2cWriteReadFn W) (startReg : N)
    (buf : Buf) (len : N) (m : Machine W) (st : Status) (written : list N)
    (w' : W) :
  _initialized (drv m) = true ->
  i2cWriteRead (_config (drv m)) = Some f ->
  buf <> None -> len <> 0 ->
  let addr := i2cAddress (_config (drv m)) in
  let tmo := i2cTimeoutMs (_config (drv m)) in
  let usr := i2cUser (_config (drv m)) in
  f addr (Some [startReg]) 1 buf len tmo usr (world m) = ((st, written), w') ->
  let r := readRegs millis startReg buf len m in
  fst (fst r) = st
  /\ snd (fst r) = rx_after buf written
  /\ calls (snd r)
     = calls m ++ [CallWriteRead addr (Some [startReg]) 1 buf len tmo usr]
  /\ world (snd r) = w'.
Proof.
  intros Hi Hf Hbuf Hlen addr tmo usr Hcall r. subst r.
  unfold readRegs. step_code. rewrite Hi. cbn.
  destruct buf as [b | ]; [ | congruence ].
  destruct (N.eqb_spec len 0) as [H0 | _]; [ congruence | ]. cbn.
  rewrite (writeReadTracked_invokes f (Some [startReg]) 1 (Some b) len m st
             written w' Hi ltac:(discriminate) ltac:(discriminate)
             ltac:(discriminate) Hf Hcall).
  destruct (untracked_code (code st)); cbn; [ repeat split; auto | ].
  unfold after.
  match goal with
  | |- context [ _updateHealth millis st ?x ] => set (m1 := x)
  end.
  assert (Hi1 : _initialized (drv m1) = true) by exact Hi.
  destruct (ok st) eqn:Hok.
  - rewrite (updateHealth_ok st m1 Hi1 Hok). cbn. repeat split; auto.
  - rewrite (updateHealth_error st m1 Hi1 Hok). cbn. repeat split; auto.
Qed.

(** X7: on an initialized driver whose write-read callback answers
    [(st, written)], [probe()] invokes it once on the chip-id register with
    a one-byte receive buffer; it returns [st] when [st] is an error, ok
    when the byte read is the expected chip id, and chip-identity-mismatch
    carrying the byte otherwise; the driver object is untouched. *)
Theorem probe_reports_identity (f : I2cWriteReadFn W) (m : Machine W)
    (st : Status) (written : list N) (w' : W) :
  _initialized (drv m) = true ->
  i2cWriteRead (_config (drv m)) = Some f ->
  let addr := i2cAddress (_config (drv m)) in
  let tmo := i2cTimeoutMs (_config (drv m)) in
  let usr := i2cUser (_config (drv m)) in
  f addr (Some [REG_CHIP_ID]) 1 (Some [0]) 1 tmo usr (world m)
  = ((st, written), w') ->
  let id := byte_of (rx_after (Some [0]) written) in
  result probe' m
  = (if ok st
     then if id =? CHIP_ID_BME280 then Ok
          else Error Err.CHIP_ID_MISMATCH "Chip ID mismatch" (Some id)
     else st)
  /\ after probe' m
     = mkMachine (drv m) w'
         (calls m ++ [CallWriteRead addr (Some [REG_CHIP_ID]) 1 (Some [0]) 1
                        tmo usr]).
Proof.
  intros Hi Hf addr tmo usr Hcall id.
  unfold probe, result, after, _i2cWriteReadRaw, invoke_i2cWriteRead.
  step_code. rewrite Hi. cbn. rewrite Hf. fold addr tmo usr.
  rewrite Hcall. cbn. fold id.
  destruct (ok st); cbn; [ | split; reflexivity ].
  destruct (id =? CHIP_ID_BME280); cbn; split; reflexivity.
Qed.

(** ** Recovery *)

(** X8: on an initialized driver, when the write-read callback answers the
    identity transfer of [recover()] with a health-tracked error, [recover()]
    returns that error and the attempt counts as one more failure: the
    consecutive and lifetime failure counts go up by one (short of their
    maxima), the error and its time are recorded, and the state is offline
    when the count has reached the threshold, degraded otherwise. *)
Theorem recover_transport_failure_counts (f : I2cWriteReadFn W)
    (m : Machine W) (st : Status) (written : list N) (w' : W) :
  _initialized (drv m) = true ->
  i2cWriteRead (_config (drv m)) = Some f ->
  f (i2cAddress (_config (drv m))) (Some [REG_CHIP_ID]) 1 (Some [0]) 1
    (i2cTimeoutMs (_config (drv m))) (i2cUser (_config (drv m))) (world m)
  = ((st, written), w') ->
  health_failure st = true ->
  let m' := after recover' m in
  result recover' m = st
  /\ consecutiveFailures m' = bumped8 (consecutiveFailures m)
  /\ totalFailures m' = bumped32 (totalFailures m)
  /\ totalSuccess m' = totalSuccess m
  /\ lastError m' = st
  /\ lastErrorMs m' = wrap32 (millis w')
  /\ state m'
     = (if offlineThreshold (_config (drv m)) <=? consecutiveFailures m'
        then OFFLINE else DEGRADED).
Proof.
  intros Hi Hf Hcall Hfail m'. subst m'.
  pose proof (health_failure_not_ok st Hfail) as Hok.
  assert (Hu : untracked_code (code st) = false).
  { unfold health_failure in Hfail. rewrite Hok in Hfail. cbn in Hfail.
    destruct (untracked_code (code st)); [ discriminate | reflexivity ]. }
  unfold recover, result, after. step_code. rewrite Hi. cbn.
  rewrite (writeReadTracked_invokes f (Some [REG_CHIP_ID]) 1 (Some [0]) 1 m
             st written w' Hi ltac:(discriminate) ltac:(discriminate)
             ltac:(discriminate) Hf Hcall).
  rewrite Hu. cbn. rewrite Hok. cbn. unfold after.
  match goal with
  | |- context [ _updateHealth millis st ?x ] => set (m1 := x)
  end.
  assert (Hi1 : _initialized (drv m1) = true) by exact Hi.
  rewrite (updateHealth_error st m1 Hi1 Hok). cbn. repeat split.
Qed.

(** X9: on an initialized driver, when the identity transfer of
    [recover()] succeeds and the byte read is the expected chip id,
    [recover()] returns ok and the driver is ready with a consecutive-failure
    count of zero, whatever the state was; the lifetime failure count and
    the last error are kept. *)
Theorem recover_success_restores_ready (f : I2cWriteReadFn W)
    (m : Machine W) (st : Status) (written : list N) (w' : W) :
  _initialized (drv m) = true ->
  i2cWriteRead (_config (drv m)) = Some f ->
  f (i2cAddress (_config (drv m))) (Some [REG_CHIP_ID]) 1 (Some [0]) 1
    (i2cTimeoutMs (_config (drv m))) (i2cUser (_config (drv m))) (world m)
  = ((st, written), w') ->
  ok st = true ->
  byte_of (rx_after (Some [0]) written) = CHIP_ID_BME280 ->
  let m' := after recover' m in
  result recover' m = Ok
  /\ state m' = READY
  /\ isOnline m' = true
  /\ consecutiveFailures m' = 0
  /\ totalSuccess m' = bumped32 (totalSuccess m)
  /\ totalFailures m' = totalFailures m
  /\ lastError m' = lastError m.
Proof.
  intros Hi Hf Hcall Hok Hid m'. subst m'.
  assert (Hu : untracked_code (code st) = false).
  { unfold ok in Hok. unfold untracked_code.
    destruct (code st); cbn in *; congruence. }
  unfold recover, result, after. step_code. rewrite Hi. cbn.
  rewrite (writeReadTracked_invokes f (Some [REG_CHIP_ID]) 1 (Some [0]) 1 m
             st written w' Hi ltac:(discriminate) ltac:(discriminate)
             ltac:(discriminate) Hf Hcall).
  rewrite Hu. cbn. rewrite Hok. cbn. rewrite Hid, N.eqb_refl. cbn.
  unfold after.
  match goal with
  | |- context [ _updateHealth millis st ?x ] => set (m1 := x)
  end.
  assert (Hi1 : _initialized (drv m1) = true) by exact Hi.
  rewrite (updateHealth_ok st m1 Hi1 Hok). cbn. repeat split.
Qed.

(** ** What no operation changes *)

Lemma updateHealth_frame (st : Status) (m : Machine W) :
  let m' := after (_updateHealth millis st) m in
  world m' = world m /\ calls m' = calls m
  /\ _config (drv m') = _config (drv m)
  /\ _initialized (drv m') = _initialized (drv m).
Proof.
  unfold after. destruct (_initialized (drv m)) eqn:Hi.
  - destruct (ok st) eqn:Hok.
    + rewrite (updateHealth_ok st m Hi Hok). cbn. auto.
    + rewrite (updateHealth_error st m Hi Hok). cbn. auto.
  - rewrite (updateHealth_uninit st m Hi). cbn. auto.
Qed.

Lemma exec_keeps_configuration (o : Op) (m : Machine W) :
  _config (drv (exec' o m)) = _config (drv m)
  /\ _initialized (drv (exec' o m)) = _initialized (drv m).
Proof.
  destruct (exec_effect o m) as [Hd | (st & m1 & Hd & _ & Hm)].
  - rewrite Hd. auto.
  - rewrite Hm. destruct (updateHealth_frame st m1) as (_ & _ & Hc & Hi).
    rewrite Hc, Hi, Hd. auto.
Qed.

Lemma exec_all_cons (o : Op) (os : list Op) (m : Machine W) :
  exec_all' (o :: os) m = exec_all' os (exec' o m).
Proof. reflexivity. Qed.

Lemma exec_all_keeps_configuration (os : list Op) (m : Machine W) :
  _config (drv (exec_all' os m)) = _config (drv m)
  /\ _initialized (drv (exec_all' os m)) = _initialized (drv m).
Proof.
  revert m. induction os as [ | o os IH]; intros m; [ auto | ].
  rewrite exec_all_cons.
  destruct (IH (exec' o m)) as [Hc Hi].
  destruct (exec_keeps_configuration o m) as [Hc' Hi'].
  split; congruence.
Qed.

Lemma Reachable_exec_all (os : list Op) (m : Machine W) :
  Reachable' m -> Reachable' (exec_all' os m).
Proof.
  revert m. induction os as [ | o os IH]; intros m Hr; [ exact Hr | ].
  rewrite exec_all_cons. apply IH. apply Reachable_exec. exact Hr.
Qed.

(** X10: no sequence of register accesses, tracked transfers, [recover],
    [probe] and [tick] changes the stored configuration or the initialized
    flag: only [begin()] and [end()] do. *)
Theorem operations_keep_configuration (os : list Op) (m : Machine W) :
  _config (drv (exec_all' os m)) = _config (drv m)
  /\ _initialized (drv (exec_all' os m)) = _initialized (drv m).
Proof. exact (exec_all_keeps_configuration os m). Qed.

(** ** One bus transaction at most *)

Lemma writeReadTracked_calls (tx : Buf) (txl : N) (rx : Buf) (rxl : N)
    (m : Machine W) :
  let m' := after (_i2cWriteReadTracked millis tx txl rx rxl) m in
  calls m' = calls m \/ exists c : BusCall, calls m' = calls m ++ [c].
Proof.
  unfold after, _i2cWriteReadTracked, _i2cWriteReadRaw, invoke_i2cWriteRead.
  step_code.
  destruct (_initialized (drv m)); cbn; [ | left; reflexivity ].
  destruct (isNull tx || (txl =? 0) || (0 <? rxl) && isNull rx); cbn;
    [ left; reflexivity | ].
  destruct (i2cWriteRead (_config (drv m))) as [f | ]; cbn;
    [ | left; reflexivity ].
  destruct (f _ _ _ _ _ _ _ _) as [[st written] w']. cbn.
  right. eexists.
  destruct (untracked_code (code st)); cbn; [ reflexivity | ].
  match goal with
  | |- context [ _updateHealth millis st ?x ] =>
      destruct (updateHealth_frame st x) as (_ & Hc & _);
      unfold after in Hc;
      destruct (_updateHealth millis st x) as [st' m2]
  end.
  cbn in *. exact Hc.
Qed.

Lemma writeTracked_calls (buf : Buf) (len : N) (m : Machine W) :
  let m' := after (_i2cWriteTracked millis buf len) m in
  calls m' = calls m \/ exists c : BusCall, calls m' = calls m ++ [c].
Proof.
  unfold after, _i2cWriteTracked, _i2cWriteRaw, invoke_i2cWrite.
  step_code.
  destruct (_initialized (drv m)); cbn; [ | left; reflexivity ].
  destruct (isNull buf || (len =? 0)); cbn; [ left; reflexivity | ].
  destruct (i2cWrite (_config (drv m))) as [f | ]; cbn;
    [ | left; reflexivity ].
  destruct (f _ _ _ _ _ _) as [st w']. cbn.
  right. eexists.
  destruct (untracked_code (code st)); cbn; [ reflexivity | ].
  match goal with
  | |- context [ _updateHealth millis st ?x ] =>
      destruct (updateHealth_frame st x) as (_ & Hc & _);
      unfold after in Hc;
      destruct (_updateHealth millis st x) as [st' m2]
  end.
  cbn in *. exact Hc.
Qed.

Lemma exec_calls (o : Op) (m : Machine W) :
  calls (exec' o m) = calls m
  \/ exists c : BusCall, calls (exec' o m) = calls m ++ [c].
Proof.
  destruct o as [r b l | r b l | t tl r rl | b l | | | n | f]; cbn [exec].
  - unfold after, readRegs. step_code.
    destruct (_initialized (drv m)); cbn; [ | left; reflexivity ].
    destruct (isNull b || (l =? 0)); cbn; [ left; reflexivity | ].
    exact (writeReadTracked_calls (Some [r]) 1 b l m).
  - unfold after, writeRegs. step_code.
    destruct (_initialized (drv m)); cbn; [ | left; reflexivity ].
    destruct b as [bytes | ]; cbn; [ | left; reflexivity ].
    destruct (l =? 0); cbn; [ left; reflexivity | ].
    destruct (MAX_WRITE_LEN <? l); cbn; [ left; reflexivity | ].
    match goal with
    | |- context [ _i2cWriteTracked millis ?p ?q m ] =>
        exact (writeTracked_calls p q m)
    end.
  - exact (writeReadTracked_calls t tl r rl m).
  - exact (writeTracked_calls b l m).
  - unfold after, recover. step_code.
    destruct (_initialized (drv m)); cbn; [ | left; reflexivity ].
    pose proof (writeReadTracked_calls (Some [REG_CHIP_ID]) 1 (Some [0]) 1 m)
      as H. unfold after in H. cbn in H.
    destruct (_i2cWriteReadTracked millis (Some [REG_CHIP_ID]) 1 (Some [0]) 1 m)
      as [[st rx] m2]. cbn in *.
    destruct (negb (ok st)); [ exact H | ].
    destruct (negb (byte_of rx =? CHIP_ID_BME280)); exact H.
  - unfold after, probe, _i2cWriteReadRaw, invoke_i2cWriteRead. step_code.
    destruct (_initialized (drv m)); cbn; [ | left; reflexivity ].
    destruct (i2cWriteRead (_config (drv m))) as [f | ]; cbn;
      [ | left; reflexivity ].
    destruct (f _ _ _ _ _ _ _ _) as [[st written] w']. cbn.
    right. eexists.
    destruct (negb (ok st)); [ reflexivity | ].
    destruct (negb (byte_of (rx_after (Some [0]) written) =? CHIP_ID_BME280));
      reflexivity.
  - left. reflexivity.
  - left. reflexivity.
Qed.

(** X11: every operation issues at most one bus transaction: after
    [readRegs], [writeRegs], a tracked transfer, [recover], [probe] or
    [tick], the log of callback invocations is the one before, or the one
    before with a single invocation added. The driver never retries. *)
Theorem one_transaction_per_operation (o : Op) (m : Machine W) :
  calls (exec' o m) = calls m
  \/ exists c : BusCall, calls (exec' o m) = calls m ++ [c].
Proof. exact (exec_calls o m). Qed.

(** ** Online, degraded, offline *)

Lemma settled_state_cases (m : Machine W) :
  settled m ->
  (state m = READY /\ consecutiveFailures m = 0)
  \/ (state m = DEGRADED /\ 1 <= consecutiveFailures m
      /\ consecutiveFailures m < offlineThreshold (_config (drv m)))
  \/ (state m = OFFLINE
      /\ offlineThreshold (_config (drv m)) <= consecutiveFailures m).
Proof.
  intros (_ & Hthr & _ & _ & (Hr & Hd & Ho)).
  destruct (N.eq_dec (consecutiveFailures m) 0) as [H0 | H0].
  - left. split; [ apply Hr; exact H0 | exact H0 ].
  - destruct (N.lt_ge_cases (consecutiveFailures m)
                (offlineThreshold (_config (drv m)))) as [Hlt | Hge].
    + right. left. assert (H1 : 1 <= consecutiveFailures m) by lia.
      split; [ apply Hd; split; assumption | split; assumption ].
    + right. right. split; [ apply Ho; exact Hge | exact Hge ].
Qed.

(** X12: in every machine reached from a successful [begin()],
    [isOnline()] is true exactly when the consecutive-failure count is below
    the stored offline threshold, and the state is never uninitialized. *)
Theorem online_iff_below_threshold (m : Machine W) :
  Reachable' m ->
  (isOnline m = true <->
   consecutiveFailures m < offlineThreshold (_config (drv m)))
  /\ state m <> UNINIT
  /\ _initialized (drv m) = true.
Proof.
  intros Hr. pose proof (Reachable_settled m Hr) as Hs.
  pose proof Hs as (Hi & Hthr & _).
  unfold isOnline.
  destruct (settled_state_cases m Hs)
    as [(Hst & Hc) | [(Hst & Hc1 & Hc2) | (Hst & Hc)]];
    unfold state in Hst; rewrite Hst; unfold state; rewrite Hst;
    repeat split; try congruence; try lia; intros; try discriminate; lia.
Qed.

(** X13: when the configured offline threshold is 0 or 1, the driver is
    never degraded: after a successful [begin()] and any sequence of
    operations the state is ready or offline, so a single tracked failure
    takes it offline. *)
Theorem threshold_one_skips_degraded (config : Config W) (m0 : Machine W)
    (os : list Op) :
  i2cWrite config <> None ->
  i2cWriteRead config <> None ->
  0 < i2cTimeoutMs config ->
  offlineThreshold config <= 1 ->
  let m := exec_all' os (after (begin config) m0) in
  state m = READY \/ state m = OFFLINE.
Proof.
  intros Hw Hwr Ht Hthr m.
  assert (Hne : i2cTimeoutMs config <> 0) by lia.
  pose proof (begin_accepts config m0 Hw Hwr Hne) as Hb.
  assert (Hok : ok (result (begin config) m0) = true)
    by (unfold result; rewrite Hb; reflexivity).
  assert (Hr : Reachable' m)
    by (apply Reachable_exec_all, Reachable_begin; exact Hok).
  assert (Hstored : offlineThreshold (_config (drv m)) = 1).
  { subst m. destruct (exec_all_keeps_configuration os
                         (after (begin config) m0)) as [Hc _].
    rewrite Hc. unfold after. rewrite Hb. cbn.
    destruct (N.eqb_spec (offlineThreshold config) 0); cbn; lia. }
  destruct (settled_state_cases m (Reachable_settled m Hr))
    as [(Hst & _) | [(_ & Hc1 & Hc2) | (Hst & _)]]; auto.
  rewrite Hstored in Hc2. lia.
Qed.

(** ** Streaks and counters *)

Lemma bumped8_min (k : N) :
  bumped8 (N.min k maxU8) = N.min (k + 1) maxU8.
Proof.
  destruct (N.lt_ge_cases k maxU8) as [Hlt | Hge].
  - rewrite (N.min_l k maxU8) by lia. rewrite (bumped8_below _ Hlt). lia.
  - rewrite (N.min_r k maxU8) by lia.
    rewrite bumped8_at_max by lia. lia.
Qed.

Lemma bumped32_min (k : N) :
  bumped32 (N.min k maxU32) = N.min (k + 1) maxU32.
Proof.
  destruct (N.lt_ge_cases k maxU32) as [Hlt | Hge].
  - rewrite (N.min_l k maxU32) by lia. rewrite (bumped32_below _ Hlt). lia.
  - rewrite (N.min_r k maxU32) by lia.
    rewrite bumped32_at_max by lia. lia.
Qed.

Lemma failing_reads_saturating (n : nat) (m m' : Machine W) (c t : N) :
  failing_reads millis n m m' ->
  _initialized (drv m) = true ->
  consecutiveFailures m = N.min c maxU8 ->
  totalFailures m = N.min t maxU32 ->
  _config (drv m') = _config (drv m)
  /\ totalSuccess m' = totalSuccess m
  /\ consecutiveFailures m' = N.min (c + N.of_nat n) maxU8
  /\ totalFailures m' = N.min (t + N.of_nat n) maxU32
  /\ (n <> O ->
      state m' =
        (if offlineThreshold (_config (drv m)) <=? consecutiveFailures m'
         then OFFLINE else DEGRADED)).
Proof.
  induction 1 as [m | n m m' rc Hfr IH Hf]; intros Hi Hc Ht.
  - rewrite N.add_0_r, N.add_0_r. repeat split; auto. congruence.
  - destruct (IH Hi Hc Ht) as (Hcfg & Hts & Hcf & Htf & _).
    destruct (do_read_failure rc m' Hf)
      as (_ & _ & Hcfg2 & Hcf2 & Htf2 & Hts2 & Hst2).
    replace (c + N.of_nat (S n)) with (c + N.of_nat n + 1) by lia.
    replace (t + N.of_nat (S n)) with (t + N.of_nat n + 1) by lia.
    rewrite <- bumped8_min, <- bumped32_min, <- Hcf, <- Htf.
    repeat split; try congruence.
    intros _. rewrite Hst2, Hcfg. reflexivity.
Qed.

(** X14: after a successful [begin()], [n >= 1] failing tracked reads in a
    row leave a consecutive-failure count of [min n 255], a lifetime failure
    count of [min n (2^32 - 1)] and a lifetime success count of 0; the
    stored threshold is the configured one, or 1 when that was 0, and the
    state is offline when the count has reached it, degraded otherwise. *)
Theorem failing_streak_after_begin (config : Config W) (m0 m' : Machine W)
    (n : nat) :
  i2cWrite config <> None ->
  i2cWriteRead config <> None ->
  0 < i2cTimeoutMs config ->
  (1 <= n)%nat ->
  failing_reads millis n (after (begin config) m0) m' ->
  let thr := offlineThreshold (_config (drv m')) in
  consecutiveFailures m' = N.min (N.of_nat n) maxU8
  /\ totalFailures m' = N.min (N.of_nat n) maxU32
  /\ totalSuccess m' = 0
  /\ thr = N.max 1 (offlineThreshold config)
  /\ state m' = (if thr <=? N.min (N.of_nat n) maxU8
                 then OFFLINE else DEGRADED).
Proof.
  intros Hw Hwr Ht Hn Hfr thr.
  assert (Hne : i2cTimeoutMs config <> 0) by lia.
  pose proof (begin_accepts config m0 Hw Hwr Hne) as Hb.
  remember (after (begin config) m0) as m1 eqn:E1.
  unfold after in E1. rewrite Hb in E1. cbn in E1.
  assert (Hi1 : _initialized (drv m1) = true) by (subst m1; reflexivity).
  assert (Hc1 : consecutiveFailures m1 = N.min 0 maxU8)
    by (subst m1; reflexivity).
  assert (Ht1 : totalFailures m1 = N.min 0 maxU32)
    by (subst m1; reflexivity).
  assert (Hs1 : totalSuccess m1 = 0) by (subst m1; reflexivity).
  assert (Hthr1 : offlineThreshold (_config (drv m1))
                  = N.max 1 (offlineThreshold config)).
  { subst m1. cbn.
    destruct (N.eqb_spec (offlineThreshold config) 0) as [H0 | H0]; cbn; lia. }
  destruct (failing_reads_saturating n m1 m' 0 0 Hfr Hi1 Hc1 Ht1)
    as (Hcfg & Hts & Hcf & Htf & Hst).
  rewrite N.add_0_l in Hcf, Htf.
  assert (Hthr : thr = N.max 1 (offlineThreshold config))
    by (subst thr; rewrite Hcfg; exact Hthr1).
  specialize (Hst ltac:(lia)). rewrite Hcf, Hthr1, <- Hthr in Hst.
  repeat split; try assumption. congruence.
Qed.

Lemma updateHealth_keeps_ranges (st : Status) (m : Machine W) :
  _initialized (drv m) = true ->
  consecutiveFailures m <= maxU8 ->
  totalFailures m <= maxU32 ->
  totalSuccess m <= maxU32 ->
  consecutiveFailures m <= totalFailures m ->
  let m' := after (_updateHealth millis st) m in
  consecutiveFailures m' <= maxU8
  /\ totalFailures m' <= maxU32
  /\ totalSuccess m' <= maxU32
  /\ consecutiveFailures m' <= totalFailures m'.
Proof.
  intros Hi Hc Hf Hs Hcf m'. subst m'.
  destruct (updateHealth_counters st m Hi)
    as [(_ & _ & Hc' & Hs' & Hf') | (_ & Hc' & Hs' & Hf')];
    rewrite Hc', Hs', Hf'.
  - pose proof (bumped32_bounds _ Hs). unfold maxU8 in *. lia.
  - pose proof (bumped32_bounds _ Hf).
    destruct (N.lt_ge_cases (consecutiveFailures m) maxU8) as [Hlt | Hge];
      destruct (N.lt_ge_cases (totalFailures m) maxU32) as [Hlt' | Hge'].
    + rewrite (bumped8_below _ Hlt), (bumped32_below _ Hlt').
      unfold maxU8, maxU32 in *. lia.
    + rewrite (bumped8_below _ Hlt), (bumped32_at_max _ Hge').
      unfold maxU8, maxU32 in *. lia.
    + rewrite (bumped8_at_max _ Hge), (bumped32_below _ Hlt').
      unfold maxU8, maxU32 in *. lia.
    + rewrite (bumped8_at_max _ Hge), (bumped32_at_max _ Hge').
      unfold maxU8, maxU32 in *. lia.
Qed.

(** X15: in every machine reached from a successful [begin()], the
    consecutive-failure count fits [uint8_t], both lifetime counts fit
    [uint32_t], and the consecutive-failure count never exceeds the lifetime
    failure count. *)
Theorem reachable_counters_in_range (m : Machine W) :
  Reachable' m ->
  consecutiveFailures m <= maxU8
  /\ totalFailures m <= maxU32
  /\ totalSuccess m <= maxU32
  /\ consecutiveFailures m <= totalFailures m.
Proof.
  induction 1 as [config m Hok | o m Hr IH].
  - destruct (begin_ok_inv config m Hok) as (Hw & Hwr & Ht).
    unfold after, consecutiveFailures, totalFailures, totalSuccess.
    rewrite (begin_accepts config m Hw Hwr Ht). cbn.
    unfold maxU8, maxU32. lia.
  - destruct (exec_effect o m) as [Hd | (st & m1 & Hd & Hi & Hm)].
    + unfold consecutiveFailures, totalFailures, totalSuccess in *.
      rewrite Hd. exact IH.
    + rewrite Hm. apply updateHealth_keeps_ranges;
        unfold consecutiveFailures, totalFailures, totalSuccess in *;
        rewrite ?Hd; try exact Hi; apply IH.
Qed.

(** ** What a register access leaves in the health record *)

Lemma tracked_outcome (m m' : Machine W) (st : Status) :
  (drv m' = drv m /\ ok st = false /\ health_failure st = false)
  \/ (exists m1 : Machine W,
        drv m1 = drv m /\ _initialized (drv m) = true
        /\ untracked_code (code st) = false
        /\ m' = after (_updateHealth millis st) m1) ->
  (ok st = true ->
   state m' = READY /\ consecutiveFailures m' = 0
   /\ totalSuccess m' = bumped32 (totalSuccess m)
   /\ totalFailures m' = totalFailures m
   /\ lastOkMs m' = wrap32 (millis (world m'))
   /\ lastError m' = lastError m /\ lastErrorMs m' = lastErrorMs m)
  /\ (health_failure st = true ->
      state m' <> READY /\ 1 <= consecutiveFailures m'
      /\ consecutiveFailures m' = bumped8 (consecutiveFailures m)
      /\ totalFailures m' = bumped32 (totalFailures m)
      /\ totalSuccess m' = totalSuccess m
      /\ lastError m' = st
      /\ lastErrorMs m' = wrap32 (millis (world m'))
      /\ lastOkMs m' = lastOkMs m).
Proof.
  intros [(Hd & Hnok & Hnf) | (m1 & Hd & Hi & _ & Hm)].
  - split; intros H; congruence.
  - assert (Hi1 : _initialized (drv m1) = true) by congruence.
    unfold state, consecutiveFailures, totalSuccess, totalFailures, lastOkMs,
      lastError, lastErrorMs.
    split; intros H.
    + subst m'. unfold after. rewrite (updateHealth_ok st m1 Hi1 H). cbn.
      rewrite Hd. repeat split.
    + pose proof (health_failure_not_ok st H) as Hok.
      subst m'. unfold after. rewrite (updateHealth_error st m1 Hi1 Hok). cbn.
      rewrite Hd.
      pose proof (bumped8_positive (_consecutiveFailures (drv m))) as Hpos.
      repeat split; auto.
      destruct (offlineThreshold (_config (drv m))
                <=? bumped8 (_consecutiveFailures (drv m))); discriminate.
Qed.

(** X16: when [readRegs] or [writeRegs] returns ok, the driver is ready
    with a consecutive-failure count of zero, the lifetime success count went
    up by one (short of its maximum), the time of the last success is the
    clock reading after the transfer, and the recorded last error and its
    time are kept: a success does not clear them. *)
Theorem successful_access_marks_ready (startReg : N) (buf : Buf) (len : N)
    (m : Machine W) :
  let healthy (m' : Machine W) :=
    state m' = READY /\ consecutiveFailures m' = 0
    /\ totalSuccess m' = bumped32 (totalSuccess m)
    /\ totalFailures m' = totalFailures m
    /\ lastOkMs m' = wrap32 (millis (world m'))
    /\ lastError m' = lastError m /\ lastErrorMs m' = lastErrorMs m in
  (ok (fst (fst (readRegs millis startReg buf len m))) = true ->
   healthy (snd (readRegs millis startReg buf len m)))
  /\ (ok (fst (writeRegs millis startReg buf len m)) = true ->
      healthy (snd (writeRegs millis startReg buf len m))).
Proof.
  intros healthy. subst healthy. cbv beta. split; intros Hok.
  - exact (proj1 (tracked_outcome m _ _ (readRegs_effect startReg buf len m))
             Hok).
  - exact (proj1 (tracked_outcome m _ _ (writeRegs_effect startReg buf len m))
             Hok).
Qed.

(** X17: when [readRegs] or [writeRegs] returns an error other than
    not-initialized, invalid-configuration and invalid-parameter, the driver
    is not ready, the consecutive-failure count is at least 1 and both
    failure counts went up by one (short of their maxima), the returned
    status is the recorded last error with the clock reading after the
    transfer as its time, and the time of the last success is kept. *)
Theorem failed_access_is_recorded (startReg : N) (buf : Buf) (len : N)
    (m : Machine W) :
  let faulty (st : Status) (m' : Machine W) :=
    state m' <> READY /\ 1 <= consecutiveFailures m'
    /\ consecutiveFailures m' = bumped8 (consecutiveFailures m)
    /\ totalFailures m' = bumped32 (totalFailures m)
    /\ totalSuccess m' = totalSuccess m
    /\ lastError m' = st
    /\ lastErrorMs m' = wrap32 (millis (world m'))
    /\ lastOkMs m' = lastOkMs m in
  (health_failure (fst (fst (readRegs millis startReg buf len m))) = true ->
   faulty (fst (fst (readRegs millis startReg buf len m)))
          (snd (readRegs millis startReg buf len m)))
  /\ (health_failure (fst (writeRegs millis startReg buf len m)) = true ->
      faulty (fst (writeRegs millis startReg buf len m))
             (snd (writeRegs millis startReg buf len m))).
Proof.
  intros faulty. subst faulty. cbv beta. split; intros Hf.
  - exact (proj2 (tracked_outcome m _ _ (readRegs_effect startReg buf len m))
             Hf).
  - exact (proj2 (tracked_outcome m _ _ (writeRegs_effect startReg buf len m))
             Hf).
Qed.

(** ** Initialization and the bus *)

(** X18: [begin()] never invokes a transport callback: the world and the
    log of invocations are as before, whatever the configuration. When it
    rejects the configuration the previously stored one is kept (and the
    driver is left uninitialized, even if it was running); when it accepts,
    the stored configuration is the given one with the offline threshold
    raised to at least 1. *)
Theorem begin_stays_off_the_bus (config : Config W) (m : Machine W) :
  let m' := after (begin config) m in
  world m' = world m
  /\ calls m' = calls m
  /\ (ok (result (begin config) m) = false ->
      _config (drv m') = _config (drv m)
      /\ _initialized (drv m') = false /\ state m' = UNINIT)
  /\ (ok (result (begin config) m) = true ->
      _config (drv m')
      = set_offlineThreshold (N.max 1 (offlineThreshold config)) config
      /\ _initialized (drv m') = true /\ state m' = READY).
Proof.
  intros m'. subst m'.
  destruct (i2cWrite config) as [fw | ] eqn:Hw;
    [ destruct (i2cWriteRead config) as [fwr | ] eqn:Hwr;
      [ destruct (N.eq_dec (i2cTimeoutMs config) 0) as [Ht | Ht] | ] | ].
  2: { assert (Hw' : i2cWrite config <> None) by congruence.
       assert (Hwr' : i2cWriteRead config <> None) by congruence.
       unfold result, after, state.
       rewrite (begin_accepts config m Hw' Hwr' Ht). cbn.
       repeat split; try discriminate.
       destruct config as [cw cwr ca ct cu cthr]. cbn in *.
       unfold set_offlineThreshold. cbn.
       destruct (N.eqb_spec cthr 0) as [-> | Hne]; cbn; [ reflexivity | ].
       rewrite N.max_r by lia. reflexivity. }
  all: destruct (begin_rejects config m) as [Hc Hm];
    [ rewrite ?Hw, ?Hwr; auto | ].
  all: unfold state; rewrite Hm; cbn.
  all: split; [ reflexivity | ]; split; [ reflexivity | ].
  all: split; [ intros _; repeat split | ].
  all: intros Hok; unfold ok in Hok; rewrite Hc in Hok; discriminate.
Qed.
End Properties.

(** * Concrete runs on the scripted transport *)

Lemma begin_invalid_config_resets_witness :
  let config := Mock.config 0 in
  let bad :=
    mkConfig (i2cWrite config) (i2cWriteRead config) Mock.ADDRESS 0 0 5 in
  i2cTimeoutMs bad = 0
  /\ code (result (begin bad) Mock.saturated) = Err.INVALID_CONFIG
  /\ state (after (begin bad) Mock.saturated) = UNINIT
  /\ totalFailures (after (begin bad) Mock.saturated) = 0.
Proof.
  intros config bad.
  assert (Hbad : i2cWrite bad = None \/ i2cWriteRead bad = None
                 \/ i2cTimeoutMs bad = 0) by (right; right; reflexivity).
  destruct (begin_invalid_config_resets bad Mock.saturated Hbad)
    as (Hc & Hs & _ & _ & _ & _ & _ & Hf & _).
  repeat split; assumption.
Defined.

Lemma begin_valid_config_ready_witness :
  let m' := after (begin (Mock.config 0)) Mock.saturated in
  0 < i2cTimeoutMs (Mock.config 0)
  /\ result (begin (Mock.config 0)) Mock.saturated = Ok
  /\ state m' = READY
  /\ totalFailures m' = 0
  /\ offlineThreshold (_config (drv m')) = 1.
Proof.
  intros m'.
  assert (Ht : 0 < i2cTimeoutMs (Mock.config 0)) by reflexivity.
  destruct (begin_valid_config_ready (Mock.config 0) Mock.saturated
              ltac:(discriminate) ltac:(discriminate) Ht)
    as (Hr & Hs & _ & Hf & _ & _ & _ & Hthr & _).
  specialize (Hthr eq_refl). repeat split; assumption.
Defined.

Lemma failing_probe_keeps_health_witness :
  let probe_ := probe Mock.REG_CHIP_ID Mock.CHIP_ID_BME280 in
  code (result probe_ Mock.degraded) = Err.CHIP_ID_MISMATCH
  /\ ok (result probe_ Mock.degraded) = false
  /\ drv (after probe_ Mock.degraded) = drv Mock.degraded
  /\ consecutiveFailures (after probe_ Mock.degraded) = 2.
Proof.
  intros probe_.
  assert (Hfail : ok (result probe_ Mock.degraded) = false) by reflexivity.
  destruct (failing_probe_keeps_health Mock.REG_CHIP_ID Mock.CHIP_ID_BME280
              Mock.degraded Hfail) as (Hd & _ & Hc & _).
  assert (Hc2 : consecutiveFailures (after probe_ Mock.degraded) = 2)
    by exact (eq_trans Hc eq_refl).
  repeat split; assumption.
Defined.

Lemma state_agrees_with_failure_count_witness :
  Reachable Mock.millis Mock.REG_CHIP_ID Mock.CHIP_ID_BME280 Mock.degraded
  /\ (state Mock.degraded = DEGRADED <->
      1 <= consecutiveFailures Mock.degraded
      /\ consecutiveFailures Mock.degraded
         < offlineThreshold (_config (drv Mock.degraded))).
Proof.
  assert (Hr : Reachable Mock.millis Mock.REG_CHIP_ID Mock.CHIP_ID_BME280
                 Mock.degraded).
  { unfold Mock.degraded, exec_all. cbn [fold_left].
    apply Reachable_exec. apply Reachable_exec.
    apply Reachable_begin. reflexivity. }
  split; [ exact Hr | ].
  destruct (state_agrees_with_failure_count Mock.millis Mock.REG_CHIP_ID
              Mock.CHIP_ID_BME280 Mock.degraded Hr) as (_ & Hd & _).
  exact Hd.
Defined.

Lemma counters_saturate_witness :
  let run := exec_all Mock.millis Mock.REG_CHIP_ID Mock.CHIP_ID_BME280 in
  let m' := run [OpRecover; OpRecover; OpReadRegs 247 (Some [0]) 1]
                Mock.saturated in
  totalSuccess Mock.saturated <= maxU32
  /\ totalFailures Mock.saturated <= maxU32
  /\ consecutiveFailures Mock.saturated <= maxU8
  /\ totalSuccess m' = maxU32
  /\ totalFailures m' = maxU32
  /\ consecutiveFailures m' <= maxU8.
Proof.
  intros run m'.
  assert (Hs : totalSuccess Mock.saturated <= maxU32) by (cbn; lia).
  assert (Hf : totalFailures Mock.saturated <= maxU32) by (cbn; lia).
  assert (Hc : consecutiveFailures Mock.saturated <= maxU8) by (cbn; lia).
  destruct (counters_saturate Mock.millis Mock.REG_CHIP_ID Mock.CHIP_ID_BME280
              [OpRecover; OpRecover; OpReadRegs 247 (Some [0]) 1]
              OpRecover (fst Mock.nack) Mock.saturated Hs Hf Hc)
    as (_ & _ & Hc' & Hs' & Hf' & _).
  specialize (Hs' eq_refl). specialize (Hf' eq_refl).
  repeat split; assumption.
Defined.

Lemma failing_reads_on_script (n : nat) (m : Machine Mock.World) :
  (forall k : nat, (k < n)%nat ->
     health_failure
       (result (do_read Mock.millis Mock.read1) (Mock.reads k m)) = true) ->
  failing_reads Mock.millis n m (Mock.reads n m).
Proof.
  induction n as [ | n IH]; intros Hall.
  - apply failing_reads_O.
  - change (Mock.reads (S n) m)
      with (after (do_read Mock.millis Mock.read1) (Mock.reads n m)).
    apply failing_reads_S.
    + apply IH. intros k Hk. apply Hall. lia.
    + apply Hall. lia.
Defined.

Lemma threshold_five_scenario_witness :
  let m0 :=
    Mock.boot [Mock.nack; Mock.timeout; Mock.nack; Mock.nack; Mock.nack;
               Mock.reply [3]] in
  let m4 := Mock.reads 4 (after (begin (Mock.config 5)) m0) in
  let m5 := Mock.reads 1 m4 in
  let m6 := after (do_read Mock.millis Mock.read1) m5 in
  failing_reads Mock.millis 4 (after (begin (Mock.config 5)) m0) m4
  /\ failing_reads Mock.millis 1 m4 m5
  /\ ok (result (do_read Mock.millis Mock.read1) m5) = true
  /\ (state m4 = DEGRADED /\ consecutiveFailures m4 = 4)
  /\ (state m5 = OFFLINE /\ consecutiveFailures m5 = 5)
  /\ (state m6 = READY /\ consecutiveFailures m6 = 0
      /\ totalSuccess m6 = 1 /\ totalFailures m6 = 5).
Proof.
  intros m0 m4 m5 m6.
  assert (H4 : failing_reads Mock.millis 4 (after (begin (Mock.config 5)) m0)
                 m4).
  { apply failing_reads_on_script. intros k Hk.
    destruct k as [ | [ | [ | [ | k]]]]; [ vm_compute; reflexivity .. | lia ]. }
  assert (H1 : failing_reads Mock.millis 1 m4 m5).
  { apply failing_reads_on_script. intros k Hk.
    destruct k as [ | k]; [ vm_compute; reflexivity | lia ]. }
  assert (Hok : ok (result (do_read Mock.millis Mock.read1) m5) = true)
    by (vm_compute; reflexivity).
  assert (Ht : 0 < i2cTimeoutMs (Mock.config 5)) by reflexivity.
  assert (Hw : i2cWrite (Mock.config 5) <> None) by discriminate.
  assert (Hwr : i2cWriteRead (Mock.config 5) <> None) by discriminate.
  exact (conj H4 (conj H1 (conj Hok
           (threshold_five_scenario Mock.millis (Mock.config 5) m0 m4 m5
              Mock.read1 Hw Hwr Ht eq_refl H4 H1 Hok)))).
Defined.

Lemma untracked_transport_answer_skips_health_witness :
  let m := Mock.started 5 [(Mock.rejected, [])] in
  let r := _i2cWriteReadTracked Mock.millis (Some [247]) 1 (Some [0]) 1 m in
  _initialized (drv m) = true
  /\ code Mock.rejected = Err.INVALID_PARAM
  /\ fst (fst r) = Mock.rejected
  /\ drv (snd r) = drv m
  /\ calls (snd r) =
       calls m ++ [CallWriteRead Mock.ADDRESS (Some [247]) 1 (Some [0]) 1 50 0].
Proof.
  intros m r.
  assert (Hi : _initialized (drv m) = true) by reflexivity.
  assert (Hc : code Mock.rejected = Err.NOT_INITIALIZED
               \/ code Mock.rejected = Err.INVALID_CONFIG
               \/ code Mock.rejected = Err.INVALID_PARAM)
    by (right; right; reflexivity).
  destruct (untracked_transport_answer_skips_health Mock.millis m
              Mock.rejected (Mock.mkWorld 1001 []) Hi Hc) as [Hwr _].
  specialize (Hwr Mock.i2cWriteRead (Some [247]) 1 (Some [0]) 1 []
                ltac:(discriminate) ltac:(discriminate) ltac:(discriminate)
                eq_refl eq_refl).
  cbv zeta in Hwr. destruct Hwr as (H1 & H2 & H3).
  repeat split; assumption.
Defined.

Lemma writeRegs_payload_bound_witness :
  let m := Mock.started 5 [Mock.reply []] in
  let bytes := repeat 7 16 in
  let r16 := writeRegs Mock.millis 242 (Some bytes) 16 m in
  let r17 := writeRegs Mock.millis 242 (Some bytes) 17 m in
  _initialized (drv m) = true
  /\ i2cWrite (_config (drv m)) = Some Mock.i2cWrite
  /\ length bytes = 16%nat
  /\ calls (snd r16) =
       calls m ++ [CallWrite Mock.ADDRESS (Some (242 :: bytes)) 17 50 0]
  /\ ok (fst r16) = true
  /\ code (fst r17) = Err.INVALID_PARAM
  /\ snd r17 = m.
Proof.
  intros m bytes r16 r17.
  assert (Hi : _initialized (drv m) = true) by reflexivity.
  assert (Hf : i2cWrite (_config (drv m)) = Some Mock.i2cWrite)
    by reflexivity.
  assert (Hlen : length bytes = 16%nat) by reflexivity.
  destruct (writeRegs_payload_bound Mock.millis Mock.i2cWrite 242 bytes m
              Hi Hf) as [H16 H17].
  destruct (H16 Hlen) as (Hcalls & _ & Hok).
  destruct H17 as (Hcode & Hsame).
  assert (Hsucceeds : ok (fst r16) = true) by (apply Hok; reflexivity).
  exact (conj Hi (conj Hf (conj Hlen (conj Hcalls (conj Hsucceeds
           (conj Hcode Hsame)))))).
Defined.

Lemma recover_mismatch_after_tracked_success_witness :
  let recover_ :=
    recover Mock.millis Mock.REG_CHIP_ID Mock.CHIP_ID_BME280 in
  _initialized (drv Mock.degraded) = true
  /\ byte_of (rx_after (Some [0]) [0]) <> Mock.CHIP_ID_BME280
  /\ code (result recover_ Mock.degraded) = Err.CHIP_ID_MISMATCH
  /\ consecutiveFailures (after recover_ Mock.degraded) = 0
  /\ state (after recover_ Mock.degraded) = READY
  /\ totalFailures (after recover_ Mock.degraded)
     = totalFailures Mock.degraded.
Proof.
  intros recover_.
  assert (Hi : _initialized (drv Mock.degraded) = true) by reflexivity.
  assert (Hid : byte_of (rx_after (Some [0]) [0]) <> Mock.CHIP_ID_BME280)
    by (vm_compute; discriminate).
  destruct (recover_mismatch_after_tracked_success Mock.millis
              Mock.REG_CHIP_ID Mock.CHIP_ID_BME280 Mock.i2cWriteRead
              Mock.degraded Ok [0] (Mock.mkWorld 1003 [])
              Hi eq_refl eq_refl eq_refl Hid)
    as (Hr & Hc & Hs & _ & Hf & _).
  assert (Hcode : code (result recover_ Mock.degraded) = Err.CHIP_ID_MISMATCH)
    by exact (f_equal code Hr).
  repeat split; assumption.
Defined.

(** C1 as stated fails: with two consecutive failures on record, a
    [recover()] whose tracked transfer succeeds but reads a foreign chip id
    returns chip-identity-mismatch, yet the consecutive-failure count drops
    from 2 to 0 and the lifetime failure count stays at 2; neither went up
    by one. *)
Lemma recover_mismatch_not_counted_as_failure :
  let recover_ :=
    recover Mock.millis Mock.REG_CHIP_ID Mock.CHIP_ID_BME280 in
  let transfer :=
    _i2cWriteReadRaw (Some [Mock.REG_CHIP_ID]) 1 (Some [0]) 1 Mock.degraded in
  let m' := after recover_ Mock.degraded in
  _initialized (drv Mock.degraded) = true
  /\ ok (fst (fst transfer)) = true
  /\ byte_of (snd (fst transfer)) <> Mock.CHIP_ID_BME280
  /\ code (result recover_ Mock.degraded) = Err.CHIP_ID_MISMATCH
  /\ consecutiveFailures Mock.degraded = 2
  /\ consecutiveFailures m' = 0
  /\ totalFailures Mock.degraded = 2
  /\ totalFailures m' = 2
  /\ state m' = READY
  /\ ~ (consecutiveFailures m' = consecutiveFailures Mock.degraded + 1
        /\ totalFailures m' = totalFailures Mock.degraded + 1).
Proof.
  cbv zeta. repeat split; try reflexivity.
  - vm_compute. discriminate.
  - vm_compute. intros [H _]. discriminate H.
Qed.

(** * Concrete runs for the further properties *)

Lemma uninitialized_calls_are_refused_witness :
  let m := Mock.boot [Mock.reply [96]] in
  let refused := Error Err.NOT_INITIALIZED "begin() not called" None in
  _initialized (drv m) = false
  /\ recover Mock.millis Mock.REG_CHIP_ID Mock.CHIP_ID_BME280 m = (refused, m)
  /\ readRegs Mock.millis 247 (Some [0]) 1 m = ((refused, Some [0]), m).
Proof.
  intros m refused.
  assert (Hi : _initialized (drv m) = false) by reflexivity.
  destruct (uninitialized_calls_are_refused Mock.millis Mock.REG_CHIP_ID
              Mock.CHIP_ID_BME280 m 247 (Some [0]) 1 None 0 None 0 Hi)
    as (_ & Hrec & Hrd & _).
  exact (conj Hi (conj Hrec Hrd)).
Defined.

Lemma tracked_wrappers_check_buffers_witness :
  let m := Mock.started 5 [Mock.reply [1]] in
  let invalid := Error Err.INVALID_PARAM "Invalid I2C buffer" None in
  _initialized (drv m) = true
  /\ _i2cWriteReadTracked Mock.millis (Some [247]) 1 None 2 m
     = ((invalid, None), m)
  /\ _i2cWriteTracked Mock.millis (Some [1]) 0 m = (invalid, m).
Proof.
  intros m invalid.
  assert (Hi : _initialized (drv m) = true) by reflexivity.
  destruct (tracked_wrappers_check_buffers Mock.millis m (Some [247]) 1 None 2
              (Some [1]) 0 Hi) as [Hwr Hw].
  assert (Hrx : 0 < 2) by reflexivity.
  exact (conj Hi (conj (Hwr (or_intror (or_intror (conj Hrx eq_refl))))
                       (Hw (or_intror eq_refl)))).
Defined.

Lemma register_access_checks_arguments_witness :
  let m := Mock.started 5 [Mock.reply [1]] in
  let bytes := Some (repeat 7 40) in
  _initialized (drv m) = true
  /\ MAX_WRITE_LEN < 40
  /\ writeRegs Mock.millis 242 bytes 40 m
     = (Error Err.INVALID_PARAM "Write length too large" None, m)
  /\ readRegs Mock.millis 247 bytes 0 m
     = ((Error Err.INVALID_PARAM "Invalid read buffer" None, bytes), m).
Proof.
  intros m bytes.
  assert (Hi : _initialized (drv m) = true) by reflexivity.
  assert (Hlen : MAX_WRITE_LEN < 40) by reflexivity.
  assert (Hbuf : bytes <> None) by discriminate.
  destruct (register_access_checks_arguments Mock.millis m 242 bytes 40 Hi)
    as (_ & _ & Hlarge).
  destruct (register_access_checks_arguments Mock.millis m 247 bytes 0 Hi)
    as (Hread & _).
  exact (conj Hi (conj Hlen (conj (Hlarge Hbuf Hlen)
                                  (Hread (or_intror eq_refl))))).
Defined.

Lemma writeRegs_frames_payload_witness :
  let m := Mock.started 5 [Mock.nack] in
  let frame := 242 :: [1; 2; 3] ++ repeat 0 13 in
  let r := writeRegs Mock.millis 242 (Some [1; 2; 3; 4; 5]) 3 m in
  _initialized (drv m) = true
  /\ (N.to_nat 3 <= length [1; 2; 3; 4; 5])%nat
  /\ fst r = fst Mock.nack
  /\ calls (snd r) = calls m ++ [CallWrite Mock.ADDRESS (Some frame) 4 50 0].
Proof.
  intros m frame r.
  assert (Hi : _initialized (drv m) = true) by reflexivity.
  assert (Hbuf : (N.to_nat 3 <= length [1; 2; 3; 4; 5])%nat)
    by (vm_compute; lia).
  assert (Hlo : 1 <= 3) by (vm_compute; discriminate).
  assert (Hhi : 3 <= MAX_WRITE_LEN) by (vm_compute; discriminate).
  destruct (writeRegs_frames_payload Mock.millis Mock.i2cWrite 242
              [1; 2; 3; 4; 5] 3 m (fst Mock.nack) (Mock.mkWorld 1001 [])
              Hi eq_refl Hlo Hhi Hbuf eq_refl) as (Hst & Hcalls & _).
  exact (conj Hi (conj Hbuf (conj Hst Hcalls))).
Defined.

Lemma readRegs_passes_transfer_witness :
  let m := Mock.started 5 [Mock.reply [17; 34; 51]] in
  let r := readRegs Mock.millis 247 (Some [0; 0; 0; 0]) 4 m in
  _initialized (drv m) = true
  /\ fst (fst r) = Ok
  /\ snd (fst r) = Some [17; 34; 51; 0]
  /\ calls (snd r)
     = calls m ++ [CallWriteRead Mock.ADDRESS (Some [247]) 1
                     (Some [0; 0; 0; 0]) 4 50 0].
Proof.
  intros m r.
  assert (Hi : _initialized (drv m) = true) by reflexivity.
  destruct (readRegs_passes_transfer Mock.millis Mock.i2cWriteRead 247
              (Some [0; 0; 0; 0]) 4 m Ok [17; 34; 51] (Mock.mkWorld 1001 [])
              Hi eq_refl ltac:(discriminate) ltac:(discriminate) eq_refl)
    as (Hst & Hrx & Hcalls & _).
  exact (conj Hi (conj Hst (conj Hrx Hcalls))).
Defined.

Lemma probe_reports_identity_witness :
  let m := Mock.started 5 [Mock.reply [96]] in
  let probe_ := probe Mock.REG_CHIP_ID Mock.CHIP_ID_BME280 in
  _initialized (drv m) = true
  /\ result probe_ m = Ok
  /\ drv (after probe_ m) = drv m.
Proof.
  intros m probe_.
  assert (Hi : _initialized (drv m) = true) by reflexivity.
  destruct (probe_reports_identity Mock.REG_CHIP_ID Mock.CHIP_ID_BME280
              Mock.i2cWriteRead m Ok [96] (Mock.mkWorld 1001 [])
              Hi eq_refl eq_refl) as (Hres & Hafter).
  exact (conj Hi (conj Hres (f_equal drv Hafter))).
Defined.

Lemma recover_transport_failure_counts_witness :
  let m := Mock.started 2 [Mock.timeout] in
  let recover_ := recover Mock.millis Mock.REG_CHIP_ID Mock.CHIP_ID_BME280 in
  _initialized (drv m) = true
  /\ health_failure (fst Mock.timeout) = true
  /\ result recover_ m = fst Mock.timeout
  /\ consecutiveFailures (after recover_ m) = bumped8 (consecutiveFailures m)
  /\ lastError (after recover_ m) = fst Mock.timeout.
Proof.
  intros m recover_.
  assert (Hi : _initialized (drv m) = true) by reflexivity.
  assert (Hf : health_failure (fst Mock.timeout) = true) by reflexivity.
  destruct (recover_transport_failure_counts Mock.millis Mock.REG_CHIP_ID
              Mock.CHIP_ID_BME280 Mock.i2cWriteRead m (fst Mock.timeout) []
              (Mock.mkWorld 1001 []) Hi eq_refl eq_refl Hf)
    as (Hres & Hcf & _ & _ & Hle & _).
  exact (conj Hi (conj Hf (conj Hres (conj Hcf Hle)))).
Defined.

Lemma recover_success_restores_ready_witness :
  let m :=
    exec_all Mock.millis Mock.REG_CHIP_ID Mock.CHIP_ID_BME280
      [OpRecover; OpRecover]
      (Mock.started 2 [Mock.nack; Mock.timeout; Mock.reply [96]]) in
  let recover_ := recover Mock.millis Mock.REG_CHIP_ID Mock.CHIP_ID_BME280 in
  _initialized (drv m) = true
  /\ state m = OFFLINE
  /\ result recover_ m = Ok
  /\ state (after recover_ m) = READY
  /\ consecutiveFailures (after recover_ m) = 0.
Proof.
  intros m recover_.
  assert (Hi : _initialized (drv m) = true) by (vm_compute; reflexivity).
  assert (Hoff : state m = OFFLINE) by (vm_compute; reflexivity).
  assert (Hcall :
    Mock.i2cWriteRead (i2cAddress (_config (drv m)))
      (Some [Mock.REG_CHIP_ID]) 1 (Some [0]) 1
      (i2cTimeoutMs (_config (drv m))) (i2cUser (_config (drv m))) (world m)
    = ((Ok, [96]), Mock.mkWorld 1003 [])) by (vm_compute; reflexivity).
  assert (Hcb : i2cWriteRead (_config (drv m)) = Some Mock.i2cWriteRead)
    by reflexivity.
  destruct (recover_success_restores_ready Mock.millis Mock.REG_CHIP_ID
              Mock.CHIP_ID_BME280 Mock.i2cWriteRead m Ok [96]
              (Mock.mkWorld 1003 []) Hi Hcb Hcall eq_refl eq_refl)
    as (Hres & Hst & _ & Hcf & _).
  exact (conj Hi (conj Hoff (conj Hres (conj Hst Hcf)))).
Defined.

Lemma online_iff_below_threshold_witness :
  Reachable Mock.millis Mock.REG_CHIP_ID Mock.CHIP_ID_BME280 Mock.degraded
  /\ (isOnline Mock.degraded = true <->
      consecutiveFailures Mock.degraded
      < offlineThreshold (_config (drv Mock.degraded)))
  /\ state Mock.degraded <> UNINIT.
Proof.
  assert (Hr : Reachable Mock.millis Mock.REG_CHIP_ID Mock.CHIP_ID_BME280
                 Mock.degraded).
  { unfold Mock.degraded, exec_all. cbn [fold_left].
    apply Reachable_exec. apply Reachable_exec.
    apply Reachable_begin. reflexivity. }
  destruct (online_iff_below_threshold Mock.millis Mock.REG_CHIP_ID
              Mock.CHIP_ID_BME280 Mock.degraded Hr) as (Hon & Hst & _).
  exact (conj Hr (conj Hon Hst)).
Defined.

Lemma threshold_one_skips_degraded_witness :
  let m :=
    exec_all Mock.millis Mock.REG_CHIP_ID Mock.CHIP_ID_BME280
      [OpReadRegs 247 (Some [0]) 1]
      (after (begin (Mock.config 0)) (Mock.boot [Mock.nack])) in
  offlineThreshold (Mock.config 0) <= 1
  /\ (state m = READY \/ state m = OFFLINE).
Proof.
  intros m.
  assert (Hthr : offlineThreshold (Mock.config 0) <= 1)
    by (vm_compute; discriminate).
  assert (Ht : 0 < i2cTimeoutMs (Mock.config 0)) by reflexivity.
  assert (Hw : i2cWrite (Mock.config 0) <> None) by discriminate.
  assert (Hwr : i2cWriteRead (Mock.config 0) <> None) by discriminate.
  exact (conj Hthr
           (threshold_one_skips_degraded Mock.millis Mock.REG_CHIP_ID
              Mock.CHIP_ID_BME280 (Mock.config 0) (Mock.boot [Mock.nack])
              [OpReadRegs 247 (Some [0]) 1] Hw Hwr Ht Hthr)).
Defined.

Lemma failing_streak_after_begin_witness :
  let m0 := Mock.boot [Mock.nack; Mock.timeout; Mock.nack] in
  let m' := Mock.reads 3 (after (begin (Mock.config 3)) m0) in
  failing_reads Mock.millis 3 (after (begin (Mock.config 3)) m0) m'
  /\ consecutiveFailures m' = N.min (N.of_nat 3) maxU8
  /\ totalFailures m' = N.min (N.of_nat 3) maxU32
  /\ totalSuccess m' = 0.
Proof.
  intros m0 m'.
  assert (Hfr : failing_reads Mock.millis 3
                  (after (begin (Mock.config 3)) m0) m').
  { apply failing_reads_on_script. intros k Hk.
    destruct k as [ | [ | [ | k]]]; [ vm_compute; reflexivity .. | lia ]. }
  assert (Ht : 0 < i2cTimeoutMs (Mock.config 3)) by reflexivity.
  assert (Hw : i2cWrite (Mock.config 3) <> None) by discriminate.
  assert (Hwr : i2cWriteRead (Mock.config 3) <> None) by discriminate.
  assert (Hn : (1 <= 3)%nat) by lia.
  destruct (failing_streak_after_begin Mock.millis (Mock.config 3) m0 m' 3
              Hw Hwr Ht Hn Hfr) as (Hcf & Htf & Hts & _).
  exact (conj Hfr (conj Hcf (conj Htf Hts))).
Defined.

Lemma reachable_counters_in_range_witness :
  Reachable Mock.millis Mock.REG_CHIP_ID Mock.CHIP_ID_BME280 Mock.degraded
  /\ consecutiveFailures Mock.degraded <= maxU8
  /\ consecutiveFailures Mock.degraded <= totalFailures Mock.degraded.
Proof.
  assert (Hr : Reachable Mock.millis Mock.REG_CHIP_ID Mock.CHIP_ID_BME280
                 Mock.degraded).
  { unfold Mock.degraded, exec_all. cbn [fold_left].
    apply Reachable_exec. apply Reachable_exec.
    apply Reachable_begin. reflexivity. }
  destruct (reachable_counters_in_range Mock.millis Mock.REG_CHIP_ID
              Mock.CHIP_ID_BME280 Mock.degraded Hr) as (Hc & _ & _ & Hle).
  exact (conj Hr (conj Hc Hle)).
Defined.

Lemma successful_access_marks_ready_witness :
  let m := Mock.degraded in
  let r := readRegs Mock.millis 247 (Some [0]) 1 m in
  ok (fst (fst r)) = true
  /\ state m = DEGRADED
  /\ state (snd r) = READY
  /\ lastError (snd r) = lastError m.
Proof.
  intros m r.
  assert (Hok : ok (fst (fst r)) = true) by (vm_compute; reflexivity).
  assert (Hdeg : state m = DEGRADED) by (vm_compute; reflexivity).
  destruct (successful_access_marks_ready Mock.millis 247 (Some [0]) 1 m)
    as [Hread _].
  destruct (Hread Hok) as (Hst & _ & _ & _ & _ & Hle & _).
  exact (conj Hok (conj Hdeg (conj Hst Hle))).
Defined.

Lemma failed_access_is_recorded_witness :
  let m := Mock.started 5 [Mock.timeout] in
  let r := writeRegs Mock.millis 242 (Some [1; 2]) 2 m in
  health_failure (fst r) = true
  /\ state (snd r) <> READY
  /\ lastError (snd r) = fst r
  /\ lastOkMs (snd r) = lastOkMs m.
Proof.
  intros m r.
  assert (Hf : health_failure (fst r) = true) by (vm_compute; reflexivity).
  destruct (failed_access_is_recorded Mock.millis 242 (Some [1; 2]) 2 m)
    as [_ Hwrite].
  destruct (Hwrite Hf) as (Hst & _ & _ & _ & _ & Hle & _ & Hok).
  exact (conj Hf (conj Hst (conj Hle Hok))).
Defined.

Lemma begin_stays_off_the_bus_witness :
  let m := Mock.degraded in
  let m' := after (begin Mock.no_config) m in
  ok (result (begin Mock.no_config) m) = false
  /\ calls m' = calls m
  /\ _config (drv m') = _config (drv m)
  /\ state m' = UNINIT.
Proof.
  intros m m'.
  assert (Hrej : ok (result (begin Mock.no_config) m) = false)
    by (vm_compute; reflexivity).
  destruct (begin_stays_off_the_bus Mock.no_config m)
    as (_ & Hcalls & Hno & _).
  destruct (Hno Hrej) as (Hcfg & _ & Hst).
  exact (conj Hrej (conj Hcalls (conj Hcfg Hst))).
Defined.
